(** * trading-ai-backend: the /analyze endpoint of [main.py]

    A shallow embedding of [main.py] (market-data fetch with endpoint
    fallback, RSI and EMA indicators, trend rule, response assembly) and
    the properties of its specification.

    Numbers.  The program computes on IEEE doubles through pandas.  Here a
    double is a rational extended with the three special values the code
    can produce or test for ([nan], [+inf], [-inf]); arithmetic on finite
    values is exact, so rounding error of the binary format is not part of
    the model, while the special-value behaviour that [calculate_rsi]
    relies on ([0/0 = nan], [x/0 = inf], [fillna]) is.  Closing prices are
    finite: they are parsed from the decimal strings of the exchange. *)

From Stdlib Require Import String Ascii DecimalString QArith Qround ZArith List Sorted Bool Lia Lqa.
Import ListNotations.

Local Open Scope Q_scope.

(** ** Doubles with their special values *)

Module Float.

Inductive t : Type :=
| NaN
| PInf
| NInf
| Fin (q : Q).

Definition isnan (x : t) : bool :=
  match x with NaN => true | _ => false end.

Definition neg (x : t) : t :=
  match x with
  | NaN => NaN
  | PInf => NInf
  | NInf => PInf
  | Fin q => Fin (- q)
  end.

Definition add (x y : t) : t :=
  match x, y with
  | NaN, _ | _, NaN => NaN
  | PInf, NInf | NInf, PInf => NaN
  | PInf, _ | _, PInf => PInf
  | NInf, _ | _, NInf => NInf
  | Fin a, Fin b => Fin (a + b)
  end.

Definition sub (x y : t) : t := add x (neg y).

(** Sign of a rational as a comparison with zero. *)
Definition sgn (q : Q) : comparison := Qcompare q 0.

Definition div (x y : t) : t :=
  match x, y with
  | NaN, _ | _, NaN => NaN
  | Fin a, Fin b =>
      match sgn b with
      | Eq => match sgn a with Eq => NaN | Gt => PInf | Lt => NInf end
      | _ => Fin (a / b)
      end
  | Fin _, _ => Fin 0
  | _, Fin b =>
      match x, sgn b with
      | PInf, Lt => NInf
      | PInf, _ => PInf
      | _, Lt => PInf
      | _, _ => NInf
      end
  | _, _ => NaN
  end.

(** [x > y] and [x < y]; every comparison with [nan] is false. *)
Definition gtb (x y : t) : bool :=
  match x, y with
  | NaN, _ | _, NaN => false
  | PInf, PInf => false
  | PInf, _ => true
  | _, PInf => false
  | NInf, _ => false
  | Fin _, NInf => true
  | Fin a, Fin b => match Qcompare a b with Gt => true | _ => false end
  end.

Definition ltb (x y : t) : bool := gtb y x.

(** [clip(lower=0)] and [clip(upper=0)] on one value; [nan] stays [nan]. *)
Definition clip_lower (lo : Q) (x : t) : t :=
  match x with
  | NaN => NaN
  | PInf => PInf
  | NInf => Fin lo
  | Fin q => Fin (if Qlt_le_dec q lo then lo else q)
  end.

Definition clip_upper (hi : Q) (x : t) : t :=
  match x with
  | NaN => NaN
  | PInf => Fin hi
  | NInf => NInf
  | Fin q => Fin (if Qlt_le_dec hi q then hi else q)
  end.

(** [fillna(v)] on one value. *)
Definition fillna (v : Q) (x : t) : t :=
  match x with NaN => Fin v | _ => x end.

End Float.

Abbreviation fl := Float.t.
Abbreviation Fin := Float.Fin.
Abbreviation NaN := Float.NaN.
Abbreviation PInf := Float.PInf.
Abbreviation NInf := Float.NInf.

(** ** Rounding to two decimals

    [round(x, 2)]: the nearest multiple of 1/100, ties to the even one, on
    the exact value.  The code rounds a double through the double product
    [x * 100], so within an ulp of a tie the two can pick different
    neighbours; statements that fix a rounded value use [rounds_to] below,
    which leaves that margin. *)

Definition rint (x : Q) : Z :=
  let f := Qfloor x in
  match Qcompare (x - inject_Z f) (1 # 2) with
  | Lt => f
  | Gt => (f + 1)%Z
  | Eq => if Z.even f then f else (f + 1)%Z
  end.

Definition round2 (x : Q) : Q := Qmake (rint (x * 100)) 100.

Definition fround2 (x : fl) : fl :=
  match x with Fin q => Fin (round2 q) | _ => x end.

(** A value with at most two decimals: a whole number of hundredths. *)
Definition is_2dp (x : Q) : Prop := exists z : Z, x == Qmake z 100.

(** ** Series

    A pandas Series of doubles is the list of its values in index order. *)

Definition series := list fl.

(** [s.iloc[-1]]: the last value, none on an empty series. *)
Definition iloc_last {A} (s : list A) : option A :=
  nth_error s (length s - 1).

(** [s.tail(n)]: the last [n] values, all of them when there are fewer. *)
Definition tail {A} (n : nat) (s : list A) : list A :=
  skipn (length s - n) s.

(** [s.diff()] on finite values: [nan] first, then consecutive differences. *)
Fixpoint diff_from (prev : Q) (s : list Q) : series :=
  match s with
  | [] => []
  | x :: rest => Float.sub (Fin x) (Fin prev) :: diff_from x rest
  end.

Definition diff (s : list Q) : series :=
  match s with
  | [] => []
  | x :: rest => NaN :: diff_from x rest
  end.

(** Elementwise binary operation on two series of the same index. *)
Fixpoint map2 {A B C} (f : A -> B -> C) (l1 : list A) (l2 : list B) : list C :=
  match l1, l2 with
  | a :: t1, b :: t2 => f a b :: map2 f t1 t2
  | _, _ => []
  end.

(** [s.rolling(period).mean()] in exact arithmetic.  The window at position [i] holds the values
    at positions [i+1-period .. i] that exist; [min_periods] defaults to the
    window size, so the mean is [nan] unless the window holds [period]
    observations (non-[nan] values), and is their sum over their number
    otherwise. *)
Definition window (period : nat) (s : series) (i : nat) : series :=
  skipn (i + 1 - period) (firstn (i + 1) s).

Definition observations (w : series) : series :=
  filter (fun x => negb (Float.isnan x)) w.

Definition fsum (w : series) : fl :=
  fold_right Float.add (Fin 0) w.

Definition window_mean (period : nat) (w : series) : fl :=
  let obs := observations w in
  if (period <=? length obs)%nat
  then Float.div (fsum obs) (Fin (inject_Z (Z.of_nat (length obs))))
  else NaN.

Definition rolling_mean (period : nat) (s : series) : series :=
  map (fun i => window_mean period (window period s i)) (seq 0 (length s)).

(** ** Indicators *)

(** [calculate_rsi], with the rolling mean it calls as a parameter.  pandas
    keeps one running, compensated sum for the window as it slides, and the
    doubles it returns depend on the order of its additions and removals;
    [rolling_mean] above is the mean of each window in exact arithmetic.
    What does not depend on the arithmetic is the contract below: one value
    for each position, and no value ([nan]) where the window holds fewer
    than [period] observations. *)
Definition rolling : Type := nat -> series -> series.

Definition rolling_contract (rm : rolling) : Prop :=
  (forall period s, length (rm period s) = length s) /\
  (forall period s i,
      (i < length s)%nat ->
      (length (observations (window period s i)) < period)%nat ->
      nth_error (rm period s) i = Some NaN).

(** [gain.rolling(period).mean()] and [loss.rolling(period).mean()] of
    [calculate_rsi]. *)
Definition rsi_avg_gain_with (rm : rolling) (closes : list Q) (period : nat)
    : series :=
  let delta := diff closes in
  let gain := map (Float.clip_lower 0) delta in
  rm period gain.

Definition rsi_avg_loss_with (rm : rolling) (closes : list Q) (period : nat)
    : series :=
  let delta := diff closes in
  let loss := map (fun d => Float.neg (Float.clip_upper 0 d)) delta in
  rm period loss.

Definition calculate_rsi_with (rm : rolling) (closes : list Q) (period : nat)
    : series :=
  let avg_gain := rsi_avg_gain_with rm closes period in
  let avg_loss := rsi_avg_loss_with rm closes period in
  let rs := map2 Float.div avg_gain avg_loss in
  let rsi :=
    map (fun x => Float.sub (Fin 100)
                    (Float.div (Fin 100) (Float.add (Fin 1) x))) rs in
  map (Float.fillna 50) rsi.

(** The same with the rolling mean of exact arithmetic. *)
Definition rsi_avg_gain (closes : list Q) (period : nat) : series :=
  rsi_avg_gain_with rolling_mean closes period.

Definition rsi_avg_loss (closes : list Q) (period : nat) : series :=
  rsi_avg_loss_with rolling_mean closes period.

Definition calculate_rsi (closes : list Q) (period : nat) : series :=
  calculate_rsi_with rolling_mean closes period.

(** [close.ewm(span=span, adjust=False).mean()] on finite values: the first
    value seeds the average, each later value is blended into the running
    average with weight [alpha = 2/(span+1)]; [min_periods] defaults to 0,
    so no position is blanked.  The blend is that of exact arithmetic; the
    doubles of pandas follow it to their last place. *)
Definition ewm_alpha (span : Z) : Q := 2 / (inject_Z span + 1).

Fixpoint ewm_loop (alpha : Q) (weighted : Q) (rest : list Q) : list Q :=
  match rest with
  | [] => []
  | cur :: rest' =>
      let weighted' := (1 - alpha) * weighted + alpha * cur in
      weighted' :: ewm_loop alpha weighted' rest'
  end.

Definition ewm_mean (span : Z) (s : list Q) : list Q :=
  match s with
  | [] => []
  | x0 :: rest => x0 :: ewm_loop (ewm_alpha span) x0 rest
  end.

(** ** Exceptions

    [HTTPException] is the one exception the program raises on purpose; the
    web framework renders it as a JSON error body.  [IndexError] is what a
    positional access past the end of a Series raises. *)

Inductive exn : Type :=
| HTTPException (status_code : Z) (detail : string)
| IndexError (msg : string).

Definition result (A : Type) : Type := (exn + A)%type.

Definition ret {A} (a : A) : result A := inr a.
Definition raise {A} (e : exn) : result A := inl e.

Definition bind {A B} (m : result A) (k : A -> result B) : result B :=
  match m with
  | inl e => inl e
  | inr a => k a
  end.

Notation "x <- m ;; k" := (bind m (fun x => k))
  (at level 61, m at next level, right associativity).

(** [s.iloc[-1]] as the program uses it: raising on an empty series. *)
Definition iloc_last_exn {A} (s : list A) : result A :=
  match iloc_last s with
  | Some x => ret x
  | None => raise (IndexError "single positional indexer is out-of-bounds")
  end.

(** ** Market data fetch *)

Local Open Scope string_scope.

Definition BINANCE_URLS : list string :=
  [ "https://api.binance.com/api/v3/klines";
    "https://api.binance.us/api/v3/klines" ].

Definition ALLOWED_INTERVALS : list string := ["5m"; "15m"; "1h"; "1d"].

(** One [requests.get] call. *)
Record request : Type := {
  req_url : string;
  req_symbol : string;
  req_interval : string;
  req_limit : Z;
  req_user_agent : string;
  req_timeout : Z
}.

(** One row of the frame: the six named columns; [close] after
    [astype(float)], the others as received. *)
Record kline : Type := {
  k_time : Z;
  k_open : string;
  k_high : string;
  k_low : string;
  k_close : Q;
  k_volume : string
}.

Definition DataFrame := list kline.

Definition closes (df : DataFrame) : list Q := map k_close df.

(** What an endpoint answers, by the branch of [get_klines] it leads to. *)
Inductive payload : Type :=
| NotJson (e : string)        (* [res.json()] raises *)
| NotList                     (* JSON, but not a list *)
| BadRows (e : string)        (* a list for which [DataFrame(...)] or
                                 [astype(float)] raises *)
| Klines (rows : DataFrame).  (* a list of candle tuples *)

Inductive reply : Type :=
| TransportError (e : string)              (* [requests.get] raises *)
| Reply (status_code : Z) (body : payload).

Definition provider := request -> reply.

Definition string_of_Z (z : Z) : string :=
  DecimalString.NilZero.string_of_int (Z.to_int z).

(** The state the loop of [get_klines] carries, and what the call leaves
    behind: the requests issued (oldest first), the last recorded error and
    the frame or the exception. *)
Record fetch : Type := {
  sent : list request;
  last_error : option string;
  fetched : result DataFrame
}.

Definition mk_request (url symbol interval : string) (limit : Z) : request :=
  {| req_url := url; req_symbol := symbol; req_interval := interval;
     req_limit := limit; req_user_agent := "Mozilla/5.0"; req_timeout := 10 |}.

(** The body of the [try]: the frame, or the error text recorded before
    [continue]. *)
Definition attempt (net : provider) (req : request) : string + DataFrame :=
  match net req with
  | TransportError e => inl e
  | Reply status_code body =>
      if negb (status_code =? 200)%Z
      then inl (req_url req ++ " → " ++ string_of_Z status_code)
      else match body with
           | NotJson e => inl e
           | NotList => inl (req_url req ++ " → invalid data")
           | BadRows e => inl e
           | Klines rows => inr rows
           end
  end.

Fixpoint get_klines_loop (net : provider) (symbol interval : string)
    (limit : Z) (urls : list string) (last : option string)
    (log : list request) : fetch :=
  match urls with
  | [] =>
      {| sent := log; last_error := last;
         fetched := raise (HTTPException 500
                             "Binance API error (all endpoints failed)") |}
  | url :: urls' =>
      let req := mk_request url symbol interval limit in
      match attempt net req with
      | inl e =>
          get_klines_loop net symbol interval limit urls' (Some e)
            (log ++ [req])
      | inr df =>
          {| sent := log ++ [req]; last_error := last; fetched := ret df |}
      end
  end.

Definition get_klines (net : provider) (symbol interval : string)
    (limit : Z) : fetch :=
  let interval :=
    if existsb (String.eqb interval) ALLOWED_INTERVALS
    then interval else "15m" in
  get_klines_loop net symbol interval limit BINANCE_URLS None [].

(** ** Response *)

(** An f-string before its values are printed: literal text and the
    numbers substituted into it. *)
Inductive piece : Type :=
| Txt (s : string)
| Num (x : fl).

Definition generate_explanation (trend : string) (rsi : fl) (ema20 ema50 : Q)
    (interval : string) : list piece :=
  let tf := if interval =? "1d" then "Daily timeframe"
            else interval ++ " timeframe" in
  if trend =? "Bullish" then
    [Txt tf; Txt ": EMA20 ("; Num (Fin ema20); Txt ") EMA50 (";
     Num (Fin ema50); Txt ") ke upar hai aur RSI "; Num rsi;
     Txt ". Buyers strong."]
  else if trend =? "Bearish" then
    [Txt tf; Txt ": EMA20 ("; Num (Fin ema20); Txt ") EMA50 (";
     Num (Fin ema50); Txt ") ke niche hai aur RSI "; Num rsi;
     Txt ". Sellers dominate."]
  else
    [Txt tf; Txt ": EMA20 aur EMA50 ke beech price aur RSI "; Num rsi;
     Txt " neutral."].

Record response : Type := {
  r_symbol : string;
  r_interval : string;
  r_trend : string;
  r_entry : Q;
  r_stoploss : Q;
  r_target : Q;
  r_confidence : list piece;
  r_explanation : list piece;
  r_prices : list Q;
  r_ema20_list : list Q;
  r_ema50_list : list Q;
  r_rsi_list : series
}.

(** [str.upper()] on a symbol of ASCII characters: the letters a to z go
    to A to Z and every other character stays.  On other characters Python
    applies the case mapping of Unicode, which is not modelled. *)
Definition upper_ascii (c : ascii) : ascii :=
  let n := nat_of_ascii c in
  if ((97 <=? n) && (n <=? 122))%nat then ascii_of_nat (n - 32) else c.

Fixpoint upper (s : string) : string :=
  match s with
  | EmptyString => EmptyString
  | String c s' => String (upper_ascii c) (upper s')
  end.

(** Lines 116-121: the three-way rule on the rounded latest values. *)
Definition trend_of (ema20 ema50 : Q) (rsi : fl) : string :=
  if Float.gtb (Fin ema20) (Fin ema50) && Float.gtb rsi (Fin 55)
  then "Bullish"
  else if Float.ltb (Fin ema20) (Fin ema50) && Float.ltb rsi (Fin 45)
  then "Bearish"
  else "Sideways".

(** The handler of [GET /analyze]: the requests it issued and the response
    or the exception it ends with.  The products and the roundings of the
    price levels are those of exact arithmetic on the values; the code
    carries them out on doubles, and what is stated of entry, stoploss and
    target as rounded values leaves the margin of [rounds_to] for it. *)
Definition analyze (net : provider) (symbol interval : string)
    : list request * result response :=
  let symbol := upper symbol in
  let f := get_klines net symbol interval 200 in
  (sent f,
   df <- fetched f ;;
   last_close <- iloc_last_exn (closes df) ;;
   let price := round2 last_close in
   let rsi_series := calculate_rsi (closes df) 14 in
   last_rsi <- iloc_last_exn rsi_series ;;
   let rsi := fround2 last_rsi in
   let ema20_series := ewm_mean 20 (closes df) in
   let ema50_series := ewm_mean 50 (closes df) in
   last_ema20 <- iloc_last_exn ema20_series ;;
   last_ema50 <- iloc_last_exn ema50_series ;;
   let ema20 := round2 last_ema20 in
   let ema50 := round2 last_ema50 in
   let trend := trend_of ema20 ema50 rsi in
   ret {| r_symbol := symbol;
          r_interval := interval;
          r_trend := trend;
          r_entry := price;
          r_stoploss :=
            round2 (price * (if interval =? "1d" then 97 # 100 else 98 # 100))%Q;
          r_target :=
            round2 (price * (if interval =? "1d" then 106 # 100 else 103 # 100))%Q;
          r_confidence := [Txt "RSI "; Num rsi];
          r_explanation := generate_explanation trend rsi ema20 ema50 interval;
          r_prices := tail 30 (closes df);
          r_ema20_list := tail 30 ema20_series;
          r_ema50_list := tail 30 ema50_series;
          r_rsi_list := tail 30 rsi_series |}).

(** What the web framework sends for the outcome of a handler: the value as
    JSON with status 200, an [HTTPException] as a JSON error body with its
    status and detail, and any other exception as its bare
    internal-server-error page. *)
Inductive http_reply : Type :=
| Json200 (body : response)
| JsonError (status_code : Z) (detail : string)
| Unstructured500.

Definition serve (r : result response) : http_reply :=
  match r with
  | inr body => Json200 body
  | inl (HTTPException status_code detail) => JsonError status_code detail
  | inl (IndexError _) => Unstructured500
  end.

(** ** Notions used in the statements *)

(** The value of the RSI at one position from the two rolling means there. *)
Definition rsi_point (g l : fl) : fl :=
  Float.fillna 50
    (Float.sub (Fin 100)
       (Float.div (Fin 100) (Float.add (Fin 1) (Float.div g l)))).

(** A value that is undefined or a number that is not negative. *)
Definition nonneg_or_nan (x : fl) : Prop :=
  match x with
  | NaN => True
  | Fin q => 0 <= q
  | _ => False
  end.

(** Fifteen closes rising by one: 1, 2, ..., 15. *)
Definition rising15 : list Q :=
  map (fun n => inject_Z (Z.of_nat n)) (seq 1 15).

(** Forty closes 1, 2, ..., 40. *)
Definition rising40 : list Q :=
  map (fun n => inject_Z (Z.of_nat n)) (seq 1 40).

Local Open Scope string_scope.

(** An answer that makes [get_klines] move on to the next endpoint: a
    transport exception, a status other than 200, or a body that does not
    give a frame. *)
Definition fails (r : reply) : Prop :=
  match r with
  | TransportError _ => True
  | Reply status_code body =>
      status_code <> 200%Z \/
      match body with Klines _ => False | _ => True end
  end.

(** The interval [get_klines] puts in its requests. *)
Definition effective_interval (interval : string) : string :=
  if existsb (String.eqb interval) ALLOWED_INTERVALS then interval else "15m"%string.

Definition first_request (symbol interval : string) (limit : Z) : request :=
  mk_request "https://api.binance.com/api/v3/klines" symbol
    (effective_interval interval) limit.

Definition second_request (symbol interval : string) (limit : Z) : request :=
  mk_request "https://api.binance.us/api/v3/klines" symbol
    (effective_interval interval) limit.

(** A provider whose endpoints are both unreachable. *)
Definition net_down : provider := fun _ => TransportError "timed out".

Definition candle (close : Q) : kline :=
  {| k_time := 0; k_open := "0"; k_high := "0"; k_low := "0";
     k_close := close; k_volume := "0" |}.

(** A provider whose endpoints answer 200 with candles of the given
    closing prices. *)
Definition net_klines (close : list Q) : provider :=
  fun _ => Reply 200 (Klines (map candle close)).

(** Fourteen closes of 0.001 and then one of 0.002. *)
Definition flat_then_up : list Q := repeat (1 # 1000) 14 ++ [2 # 1000].

(** A provider whose first endpoint answers 503 and whose second endpoint
    answers 200 with candles of the given closing prices. *)
Definition net_second_only (close : list Q) : provider :=
  fun req =>
    if (req_url req =? "https://api.binance.com/api/v3/klines")%string
    then Reply 503 NotList
    else Reply 200 (Klines (map candle close)).

(** The numbers substituted into an f-string, in their order. *)
Fixpoint numbers (l : list piece) : list fl :=
  match l with
  | [] => []
  | Txt _ :: rest => numbers rest
  | Num x :: rest => x :: numbers rest
  end.

(** A value that is undefined or zero. *)
Definition zero_or_nan (x : fl) : Prop :=
  match x with
  | NaN => True
  | Fin q => (q == 0)%Q
  | _ => False
  end.

(** Fifteen closes falling by one: 15, 14, ..., 1. *)
Definition falling15 : list Q :=
  map (fun n => inject_Z (Z.of_nat n)) (rev (seq 1 15)).

(** Twenty closes of 7. *)
Definition flat20 : list Q := repeat 7 20.


(** A value of at most 10^9 in size: there the double operations of a
    rounding to two decimals are exact to well under a ten-thousandth. *)
Definition moderate (x : Q) : Prop :=
  (- inject_Z 1000000000 <= x /\ x <= inject_Z 1000000000)%Q.

(** [q] is [x] rounded to two decimals: a whole number of hundredths that
    lies at most half a cent from [x], with a margin of a ten-thousandth
    for the rounding of the double operations the code rounds with. *)
Definition rounds_to (x q : Q) : Prop :=
  (is_2dp q /\ - (51 # 10000) <= q - x /\ q - x <= 51 # 10000)%Q.

(** A close of 100.0078. *)
Definition close_100_0078 : Q := 1000078 # 10000.

(** * Properties *)

Local Open Scope Q_scope.

(** ** Lengths and positions of the series operations *)

Lemma diff_from_length : forall s prev, length (diff_from prev s) = length s.
Proof. induction s as [|x s IH]; intros prev; simpl; [reflexivity | now rewrite IH]. Qed.

Lemma diff_length : forall s, length (diff s) = length s.
Proof. destruct s as [|x s]; simpl; [reflexivity | now rewrite diff_from_length]. Qed.

Lemma rolling_mean_length : forall period s, length (rolling_mean period s) = length s.
Proof. intros; unfold rolling_mean; now rewrite length_map, length_seq. Qed.

Lemma rolling_mean_nth : forall period s i,
  (i < length s)%nat ->
  nth_error (rolling_mean period s) i
  = Some (window_mean period (window period s i)).
Proof.
  intros period s i Hi. unfold rolling_mean.
  rewrite nth_error_map, nth_error_seq.
  apply Nat.ltb_lt in Hi. now rewrite Hi.
Qed.

Lemma map2_length : forall {A B C} (f : A -> B -> C) l1 l2,
  length l1 = length l2 -> length (map2 f l1 l2) = length l1.
Proof.
  induction l1 as [|a l1 IH]; destruct l2 as [|b l2]; simpl; intros H;
    try discriminate; [reflexivity | now rewrite IH by lia].
Qed.

Lemma map2_nth : forall {A B C} (f : A -> B -> C) l1 l2 i a b,
  nth_error l1 i = Some a -> nth_error l2 i = Some b ->
  nth_error (map2 f l1 l2) i = Some (f a b).
Proof.
  induction l1 as [|x l1 IH]; intros l2 i a b Ha Hb.
  - destruct i; discriminate.
  - destruct l2 as [|y l2]; [destruct i; discriminate|].
    destruct i as [|i]; simpl in *.
    + now inversion Ha; inversion Hb.
    + now apply IH.
Qed.

Lemma rsi_avg_gain_length : forall closes period,
  length (rsi_avg_gain closes period) = length closes.
Proof.
  intros; unfold rsi_avg_gain, rsi_avg_gain_with.
  now rewrite rolling_mean_length, length_map, diff_length.
Qed.

Lemma rsi_avg_loss_length : forall closes period,
  length (rsi_avg_loss closes period) = length closes.
Proof.
  intros; unfold rsi_avg_loss, rsi_avg_loss_with.
  now rewrite rolling_mean_length, length_map, diff_length.
Qed.

Lemma calculate_rsi_length : forall closes period,
  length (calculate_rsi closes period) = length closes.
Proof.
  intros; unfold calculate_rsi, calculate_rsi_with.
  rewrite !length_map, map2_length; rewrite rsi_avg_gain_length; auto.
  now rewrite rsi_avg_loss_length.
Qed.

Lemma calculate_rsi_nth : forall closes period i g l,
  nth_error (rsi_avg_gain closes period) i = Some g ->
  nth_error (rsi_avg_loss closes period) i = Some l ->
  nth_error (calculate_rsi closes period) i = Some (rsi_point g l).
Proof.
  intros closes period i g l Hg Hl. unfold calculate_rsi, calculate_rsi_with.
  rewrite !nth_error_map, (map2_nth _ _ _ _ _ _ Hg Hl). reflexivity.
Qed.

(** ** Gains, losses and their rolling means are never negative *)

Lemma diff_from_finite : forall s prev,
  Forall (fun x => exists q, x = Fin q) (diff_from prev s).
Proof.
  induction s as [|x s IH]; intros prev; simpl; constructor; eauto.
Qed.

Lemma diff_finite_or_nan : forall s,
  Forall (fun x => x = NaN \/ exists q, x = Fin q) (diff s).
Proof.
  destruct s as [|x s]; simpl; constructor; [now left|].
  eapply Forall_impl; [|apply diff_from_finite]. intros a H; now right.
Qed.

Lemma gain_nonneg : forall s,
  Forall nonneg_or_nan (map (Float.clip_lower 0) (diff s)).
Proof.
  intros s. apply Forall_map.
  eapply Forall_impl; [|apply diff_finite_or_nan].
  intros a [-> | [q ->]]; simpl; [exact I|].
  destruct (Qlt_le_dec q 0); lra.
Qed.

Lemma loss_nonneg : forall s,
  Forall nonneg_or_nan
    (map (fun d => Float.neg (Float.clip_upper 0 d)) (diff s)).
Proof.
  intros s. apply Forall_map.
  eapply Forall_impl; [|apply diff_finite_or_nan].
  intros a [-> | [q ->]]; simpl; [exact I|].
  destruct (Qlt_le_dec 0 q); lra.
Qed.

Lemma firstn_Forall : forall (P : fl -> Prop) n s,
  Forall P s -> Forall P (firstn n s).
Proof.
  induction n as [|n IH]; intros s H; [constructor|].
  destruct H; simpl; constructor; auto.
Qed.

Lemma skipn_Forall : forall (P : fl -> Prop) n s,
  Forall P s -> Forall P (skipn n s).
Proof.
  induction n as [|n IH]; intros s H; [exact H|].
  destruct H; simpl; [constructor | auto].
Qed.

Lemma window_Forall : forall (P : fl -> Prop) period s i,
  Forall P s -> Forall P (window period s i).
Proof.
  intros P period s i H. unfold window.
  now apply skipn_Forall, firstn_Forall.
Qed.

Lemma observations_nonneg : forall w,
  Forall nonneg_or_nan w ->
  Forall (fun x => exists q, x = Fin q /\ 0 <= q) (observations w).
Proof.
  induction 1 as [|x w Hx Hw IH]; simpl; [constructor|].
  destruct x as [| | |q]; simpl in *; try contradiction; auto.
  constructor; eauto.
Qed.

Lemma fsum_nonneg : forall w,
  Forall (fun x => exists q, x = Fin q /\ 0 <= q) w ->
  exists s, fsum w = Fin s /\ 0 <= s.
Proof.
  unfold fsum.
  induction 1 as [|x w [q [-> Hq]] Hw [s [IH Hs]]]; cbn [fold_right].
  - exists 0. split; [reflexivity | lra].
  - rewrite IH. cbn [Float.add].
    exists (q + s). split; [reflexivity | lra].
Qed.

Lemma sgn_pos : forall q, 0 < q -> Float.sgn q = Gt.
Proof. intros q H. unfold Float.sgn. now apply Qgt_alt. Qed.

Lemma sgn_zero : forall q, q == 0 -> Float.sgn q = Eq.
Proof. intros q H. unfold Float.sgn. now apply Qeq_alt. Qed.

Lemma inject_nat_pos : forall n, 0 < inject_Z (Z.of_nat (S n)).
Proof. intros n. unfold Qlt; simpl. lia. Qed.

Lemma window_mean_nonneg : forall period w,
  Forall nonneg_or_nan w -> nonneg_or_nan (window_mean period w).
Proof.
  intros period w H. unfold window_mean.
  destruct (period <=? length (observations w))%nat; [|exact I].
  destruct (fsum_nonneg _ (observations_nonneg _ H)) as [s [Hs Hs0]].
  destruct (observations w) as [|x obs] eqn:E.
  - reflexivity.
  - rewrite Hs. cbn [length Float.div].
    rewrite (sgn_pos _ (inject_nat_pos (length obs))). simpl.
    apply Qle_shift_div_l; [apply inject_nat_pos | lra].
Qed.

Lemma rsi_avg_gain_nonneg : forall closes period i g,
  nth_error (rsi_avg_gain closes period) i = Some g -> nonneg_or_nan g.
Proof.
  intros closes period i g H. unfold rsi_avg_gain, rsi_avg_gain_with in H.
  assert (Hi : (i < length (map (Float.clip_lower 0) (diff closes)))%nat).
  { rewrite <- (rolling_mean_length period). apply nth_error_Some. congruence. }
  rewrite rolling_mean_nth in H by exact Hi. inversion H; subst.
  apply window_mean_nonneg, window_Forall, gain_nonneg.
Qed.

Lemma rsi_avg_loss_nonneg : forall closes period i l,
  nth_error (rsi_avg_loss closes period) i = Some l -> nonneg_or_nan l.
Proof.
  intros closes period i l H. unfold rsi_avg_loss, rsi_avg_loss_with in H.
  assert (Hi : (i < length (map (fun d => Float.neg (Float.clip_upper 0 d))
                              (diff closes)))%nat).
  { rewrite <- (rolling_mean_length period). apply nth_error_Some. congruence. }
  rewrite rolling_mean_nth in H by exact Hi. inversion H; subst.
  apply window_mean_nonneg, window_Forall, loss_nonneg.
Qed.

(** ** The RSI at one position *)

Lemma rsi_point_nan_l : forall l, rsi_point NaN l = Fin 50.
Proof. reflexivity. Qed.

Lemma rsi_point_nan_r : forall g, rsi_point g NaN = Fin 50.
Proof. destruct g; reflexivity. Qed.

Lemma rsi_point_flat : forall g l,
  g == 0 -> l == 0 -> rsi_point (Fin g) (Fin l) = Fin 50.
Proof.
  intros g l Hg Hl. unfold rsi_point. cbn [Float.div].
  now rewrite (sgn_zero _ Hl), (sgn_zero _ Hg).
Qed.

Lemma rsi_point_no_loss : forall g l,
  0 < g -> l == 0 -> exists r, rsi_point (Fin g) (Fin l) = Fin r /\ r == 100.
Proof.
  intros g l Hg Hl. unfold rsi_point. cbn [Float.div].
  rewrite (sgn_zero _ Hl), (sgn_pos _ Hg). simpl.
  eexists; split; [reflexivity | lra].
Qed.

Lemma rsi_point_loss : forall g l,
  0 <= g -> 0 < l ->
  exists r, rsi_point (Fin g) (Fin l) = Fin r /\ 0 <= r /\ r < 100.
Proof.
  intros g l Hg Hl. unfold rsi_point. cbn [Float.div Float.add].
  rewrite (sgn_pos _ Hl). cbn [Float.add Float.div].
  assert (Hrs : 0 <= g / l) by (apply Qle_shift_div_l; lra).
  assert (Hd : 0 < 1 + g / l) by lra.
  rewrite (sgn_pos _ Hd). simpl.
  eexists; split; [reflexivity|].
  assert (H1 : 100 / (1 + g / l) <= 100).
  { apply Qle_shift_div_r; [exact Hd|]. lra. }
  assert (H2 : 0 < 100 / (1 + g / l)).
  { apply Qlt_shift_div_l; [exact Hd|]. lra. }
  lra.
Qed.

Lemma rsi_point_range : forall g l,
  nonneg_or_nan g -> nonneg_or_nan l ->
  exists r, rsi_point g l = Fin r /\ 0 <= r <= 100.
Proof.
  intros g l Hg Hl.
  destruct g as [| | |a]; try contradiction.
  { exists 50. split; [apply rsi_point_nan_l | lra]. }
  destruct l as [| | |b]; try contradiction.
  { exists 50. split; [apply rsi_point_nan_r | lra]. }
  simpl in Hg, Hl.
  destruct (Qlt_le_dec 0 b) as [Hb | Hb].
  - destruct (rsi_point_loss a b Hg Hb) as [r [Hr ?]].
    exists r. split; [exact Hr | lra].
  - assert (Hb0 : b == 0) by lra.
    destruct (Qlt_le_dec 0 a) as [Ha | Ha].
    + destruct (rsi_point_no_loss a b Ha Hb0) as [r [Hr ?]].
      exists r. split; [exact Hr | lra].
    + assert (Ha0 : a == 0) by lra.
      exists 50. split; [now apply rsi_point_flat | lra].
Qed.

(** ** Warm-up: the first difference is undefined, so the first [period]
    positions have no full window of observations *)

Lemma observations_length : forall w, (length (observations w) <= length w)%nat.
Proof.
  induction w as [|x w IH]; simpl; [lia|].
  destruct (negb (Float.isnan x)); simpl; lia.
Qed.

Lemma window_mean_warmup : forall period rest i,
  (i < period)%nat ->
  window_mean period (window period (NaN :: rest) i) = NaN.
Proof.
  intros period rest i Hi. unfold window, window_mean.
  replace (i + 1 - period)%nat with 0%nat by lia.
  replace (i + 1)%nat with (S i) by lia.
  cbn [skipn firstn observations filter Float.isnan negb].
  fold (observations (firstn i rest)).
  assert (H : (length (observations (firstn i rest)) <= i)%nat).
  { etransitivity; [apply observations_length | apply firstn_le_length]. }
  destruct (Nat.leb_spec period (length (observations (firstn i rest))));
    [lia | reflexivity].
Qed.

Lemma rsi_avg_gain_warmup : forall closes period i,
  (i < length closes)%nat -> (i < period)%nat ->
  nth_error (rsi_avg_gain closes period) i = Some NaN.
Proof.
  intros closes period i Hlen Hi. unfold rsi_avg_gain, rsi_avg_gain_with.
  rewrite rolling_mean_nth by now rewrite length_map, diff_length.
  destruct closes as [|x rest]; [simpl in Hlen; lia|].
  cbn [diff map Float.clip_lower]. now rewrite window_mean_warmup.
Qed.

Lemma calculate_rsi_defined : forall closes period i,
  (i < length closes)%nat ->
  exists g l,
    nth_error (rsi_avg_gain closes period) i = Some g /\
    nth_error (rsi_avg_loss closes period) i = Some l /\
    nth_error (calculate_rsi closes period) i = Some (rsi_point g l).
Proof.
  intros closes period i Hi.
  destruct (nth_error (rsi_avg_gain closes period) i) as [g|] eqn:Hg.
  2:{ apply nth_error_None in Hg. rewrite rsi_avg_gain_length in Hg. lia. }
  destruct (nth_error (rsi_avg_loss closes period) i) as [l|] eqn:Hl.
  2:{ apply nth_error_None in Hl. rewrite rsi_avg_loss_length in Hl. lia. }
  exists g, l. repeat split. now apply calculate_rsi_nth.
Qed.

(** ** The RSI over any rolling mean that keeps the contract of pandas *)

Lemma rolling_mean_contract : rolling_contract rolling_mean.
Proof.
  split; [apply rolling_mean_length|].
  intros period s i Hi Hobs. rewrite rolling_mean_nth by exact Hi.
  unfold window_mean.
  destruct (Nat.leb_spec period (length (observations (window period s i))));
    [lia | reflexivity].
Qed.

Lemma window_warmup_observations : forall period rest i,
  (i < period)%nat ->
  (length (observations (window period (NaN :: rest) i)) < period)%nat.
Proof.
  intros period rest i Hi. unfold window.
  replace (i + 1 - period)%nat with 0%nat by lia.
  replace (i + 1)%nat with (S i) by lia.
  cbn [skipn firstn observations filter Float.isnan negb].
  fold (observations (firstn i rest)).
  assert (H : (length (observations (firstn i rest)) <= i)%nat).
  { etransitivity; [apply observations_length | apply firstn_le_length]. }
  lia.
Qed.

Lemma rsi_point_defined : forall g l, rsi_point g l <> NaN.
Proof.
  intros g l. unfold rsi_point.
  destruct (Float.sub _ _); discriminate.
Qed.

Section WithRolling.

Variable rm : rolling.
Hypothesis rm_contract : rolling_contract rm.

Lemma rsi_avg_gain_with_length : forall closes period,
  length (rsi_avg_gain_with rm closes period) = length closes.
Proof.
  intros. unfold rsi_avg_gain_with.
  now rewrite (proj1 rm_contract), length_map, diff_length.
Qed.

Lemma rsi_avg_loss_with_length : forall closes period,
  length (rsi_avg_loss_with rm closes period) = length closes.
Proof.
  intros. unfold rsi_avg_loss_with.
  now rewrite (proj1 rm_contract), length_map, diff_length.
Qed.

Lemma calculate_rsi_with_length : forall closes period,
  length (calculate_rsi_with rm closes period) = length closes.
Proof.
  intros. unfold calculate_rsi_with.
  rewrite !length_map, map2_length; rewrite rsi_avg_gain_with_length; auto.
  now rewrite rsi_avg_loss_with_length.
Qed.

Lemma calculate_rsi_with_defined : forall closes period i,
  (i < length closes)%nat ->
  exists g l,
    nth_error (rsi_avg_gain_with rm closes period) i = Some g /\
    nth_error (rsi_avg_loss_with rm closes period) i = Some l /\
    nth_error (calculate_rsi_with rm closes period) i = Some (rsi_point g l).
Proof.
  intros closes period i Hi.
  destruct (nth_error (rsi_avg_gain_with rm closes period) i) as [g|] eqn:Hg.
  2:{ apply nth_error_None in Hg. rewrite rsi_avg_gain_with_length in Hg. lia. }
  destruct (nth_error (rsi_avg_loss_with rm closes period) i) as [l|] eqn:Hl.
  2:{ apply nth_error_None in Hl. rewrite rsi_avg_loss_with_length in Hl. lia. }
  exists g, l. repeat split. unfold calculate_rsi_with.
  rewrite !nth_error_map, (map2_nth _ _ _ _ _ _ Hg Hl). reflexivity.
Qed.

Lemma rsi_avg_gain_with_warmup : forall closes period i,
  (i < length closes)%nat -> (i < period)%nat ->
  nth_error (rsi_avg_gain_with rm closes period) i = Some NaN.
Proof.
  intros closes period i Hlen Hi. unfold rsi_avg_gain_with.
  apply (proj2 rm_contract).
  - now rewrite length_map, diff_length.
  - destruct closes as [|x rest]; [simpl in Hlen; lia|].
    cbn [diff map Float.clip_lower]. now apply window_warmup_observations.
Qed.

End WithRolling.

(** C1 (as amended).  On every closing-price sequence, for every rolling
    mean that keeps the contract of pandas (one value for each position,
    none where the window holds fewer than 14 observations), every
    position of the RSI series of [calculate_rsi] with period 14 holds a
    value and never [nan].  The value is 50 at each of the first 14
    positions (the warm-up region) and wherever both rolling averages are
    0; it is 100 where the rolling average of losses is 0 and the rolling
    average of gains is positive; and it lies within [0, 100] wherever
    neither rolling average is negative. *)
Theorem calculate_rsi_range_and_neutral :
  forall (rm : rolling) (closes : list Q) (i : nat),
    rolling_contract rm ->
    (i < length closes)%nat ->
    exists g l x : fl,
      nth_error (rsi_avg_gain_with rm closes 14) i = Some g /\
      nth_error (rsi_avg_loss_with rm closes 14) i = Some l /\
      nth_error (calculate_rsi_with rm closes 14) i = Some x /\
      x <> NaN /\
      ((i < 14)%nat -> x = Fin 50) /\
      (forall gq lq : Q,
          g = Fin gq -> l = Fin lq -> lq == 0 ->
          (gq == 0 -> x = Fin 50) /\
          (0 < gq -> exists r, x = Fin r /\ r == 100)) /\
      (forall gq lq : Q,
          g = Fin gq -> l = Fin lq -> 0 <= gq -> 0 <= lq ->
          exists r, x = Fin r /\ 0 <= r /\ r <= 100).
Proof.
  intros rm closes i Hrm Hi.
  destruct (calculate_rsi_with_defined rm Hrm closes 14 i Hi)
    as [g [l [Hg [Hl Hr]]]].
  exists g, l, (rsi_point g l).
  repeat (split; [assumption|]).
  split; [apply rsi_point_defined|]. split; [|split].
  - intros Hw.
    rewrite (rsi_avg_gain_with_warmup rm Hrm closes 14 i Hi Hw) in Hg.
    inversion Hg. reflexivity.
  - intros gq lq -> -> Hl0. split; intros Hg0.
    + now apply rsi_point_flat.
    + now apply rsi_point_no_loss.
  - intros gq lq -> -> Hg0 Hl0.
    destruct (rsi_point_range (Fin gq) (Fin lq) Hg0 Hl0) as [r [Hp Hrange]].
    exists r. split; [exact Hp | exact Hrange].
Qed.

Lemma calculate_rsi_range_and_neutral_witness :
  (rolling_contract rolling_mean /\ (14 < length rising15)%nat) /\
  exists g l x : fl,
    nth_error (rsi_avg_gain_with rolling_mean rising15 14) 14 = Some g /\
    nth_error (rsi_avg_loss_with rolling_mean rising15 14) 14 = Some l /\
    nth_error (calculate_rsi_with rolling_mean rising15 14) 14 = Some x /\
    x <> NaN /\
    ((14 < 14)%nat -> x = Fin 50) /\
    (forall gq lq : Q,
        g = Fin gq -> l = Fin lq -> lq == 0 ->
        (gq == 0 -> x = Fin 50) /\
        (0 < gq -> exists r, x = Fin r /\ r == 100)) /\
    (forall gq lq : Q,
        g = Fin gq -> l = Fin lq -> 0 <= gq -> 0 <= lq ->
        exists r, x = Fin r /\ 0 <= r /\ r <= 100).
Proof.
  assert (H : (14 < length rising15)%nat) by (vm_compute; lia).
  split; [split; [exact rolling_mean_contract | exact H]|].
  exact (calculate_rsi_range_and_neutral rolling_mean rising15 14
           rolling_mean_contract H).
Defined.

(** C1 (as stated) fails: on the closes 1, 2, ..., 15 the rolling average of
    losses at position 14 is 0, and the RSI there is 100, not 50. *)
Lemma calculate_rsi_no_loss_is_100 :
  rising15 <> [] /\
  exists l r : Q,
    nth_error (rsi_avg_loss rising15 14) 14 = Some (Fin l) /\ l == 0 /\
    nth_error (calculate_rsi rising15 14) 14 = Some (Fin r) /\ r == 100 /\
    ~ r == 50.
Proof.
  split; [discriminate|].
  exists (0 # 14), 100. repeat split; try reflexivity.
  intros H; discriminate H.
Qed.

(** ** Exponential moving averages *)

Lemma ewm_loop_length : forall alpha rest weighted,
  length (ewm_loop alpha weighted rest) = length rest.
Proof.
  induction rest as [|cur rest IH]; intros weighted; simpl;
    [reflexivity | now rewrite IH].
Qed.

Lemma ewm_mean_length : forall span s, length (ewm_mean span s) = length s.
Proof.
  destruct s as [|x0 rest]; simpl; [reflexivity | now rewrite ewm_loop_length].
Qed.

Lemma ewm_loop_nth : forall alpha rest weighted i cur,
  nth_error rest i = Some cur ->
  exists prev,
    nth_error (weighted :: ewm_loop alpha weighted rest) i = Some prev /\
    nth_error (ewm_loop alpha weighted rest) i
    = Some ((1 - alpha) * prev + alpha * cur).
Proof.
  induction rest as [|x rest IH]; intros weighted i cur Hi.
  - destruct i; discriminate.
  - destruct i as [|i]; simpl in Hi.
    + inversion Hi; subst x. exists weighted. split; reflexivity.
    + destruct (IH ((1 - alpha) * weighted + alpha * x) i cur Hi)
        as [prev [Hprev Hcur]].
      exists prev. split; [exact Hprev | exact Hcur].
Qed.

(** The series of [ewm_mean] position by position: as long as the closes,
    seeded with the first close, each later value a blend of the close at
    its position and the value before it. *)
Lemma ewm_mean_recurrence :
  forall (span : Z) (close : list Q),
    (span = 20 \/ span = 50)%Z ->
    close <> [] ->
    let alpha := 2 / (inject_Z span + 1) in
    let ema := ewm_mean span close in
    length ema = length close /\
    nth_error ema 0 = nth_error close 0 /\
    forall i : nat,
      (0 < i < length close)%nat ->
      exists c prev e : Q,
        nth_error close i = Some c /\
        nth_error ema (i - 1) = Some prev /\
        nth_error ema i = Some e /\
        e == alpha * c + (1 - alpha) * prev.
Proof.
  intros span close _ Hne alpha ema.
  destruct close as [|x0 rest]; [contradiction|].
  subst ema. split; [apply ewm_mean_length|]. split; [reflexivity|].
  intros i [Hpos Hlt]. destruct i as [|i]; [lia|].
  simpl in Hlt.
  destruct (nth_error rest i) as [c|] eqn:Hc.
  2:{ apply nth_error_None in Hc. lia. }
  destruct (ewm_loop_nth (ewm_alpha span) rest x0 i c Hc) as [prev [Hp He]].
  exists c, prev, ((1 - ewm_alpha span) * prev + ewm_alpha span * c).
  replace (S i - 1)%nat with i by lia.
  repeat split; try assumption.
  subst alpha. unfold ewm_alpha. ring.
Qed.

(** ** What a successful run of [analyze] returns *)

Lemma iloc_last_exn_ok : forall {A} (s : list A) x,
  iloc_last_exn s = inr x -> iloc_last s = Some x.
Proof.
  intros A s x. unfold iloc_last_exn, ret, raise.
  destruct (iloc_last s); intros H; inversion H; reflexivity.
Qed.

Lemma iloc_last_nonempty : forall {A} (s : list A) x,
  iloc_last s = Some x -> s <> [].
Proof. intros A s x H ->. discriminate H. Qed.

Lemma analyze_ok : forall net symbol interval log resp,
  analyze net symbol interval = (log, inr resp) ->
  exists df last_close last_rsi last_ema20 last_ema50,
    fetched (get_klines net (upper symbol) interval 200) = inr df /\
    log = sent (get_klines net (upper symbol) interval 200) /\
    iloc_last (closes df) = Some last_close /\
    iloc_last (calculate_rsi (closes df) 14) = Some last_rsi /\
    iloc_last (ewm_mean 20 (closes df)) = Some last_ema20 /\
    iloc_last (ewm_mean 50 (closes df)) = Some last_ema50 /\
    r_symbol resp = upper symbol /\
    r_interval resp = interval /\
    r_trend resp
    = trend_of (round2 last_ema20) (round2 last_ema50) (fround2 last_rsi) /\
    r_entry resp = round2 last_close /\
    r_stoploss resp
    = round2 (round2 last_close
              * (if (interval =? "1d")%string then 97 # 100 else 98 # 100)) /\
    r_target resp
    = round2 (round2 last_close
              * (if (interval =? "1d")%string then 106 # 100 else 103 # 100)) /\
    r_confidence resp = [Txt "RSI "; Num (fround2 last_rsi)] /\
    r_explanation resp
    = generate_explanation (r_trend resp) (fround2 last_rsi)
        (round2 last_ema20) (round2 last_ema50) interval /\
    r_prices resp = tail 30 (closes df) /\
    r_ema20_list resp = tail 30 (ewm_mean 20 (closes df)) /\
    r_ema50_list resp = tail 30 (ewm_mean 50 (closes df)) /\
    r_rsi_list resp = tail 30 (calculate_rsi (closes df) 14).
Proof.
  intros net symbol interval log resp H. unfold analyze in H.
  inversion H as [[Hlog Hres]]. clear H.
  destruct (fetched (get_klines net (upper symbol) interval 200))
    as [e|df] eqn:Hdf; [discriminate|].
  cbn [bind] in Hres.
  destruct (iloc_last_exn (closes df)) as [e|lc] eqn:Hlc; [discriminate|].
  cbn [bind] in Hres.
  destruct (iloc_last_exn (calculate_rsi (closes df) 14)) as [e|lr] eqn:Hlr;
    [discriminate|].
  cbn [bind] in Hres.
  destruct (iloc_last_exn (ewm_mean 20 (closes df))) as [e|l20] eqn:H20;
    [discriminate|].
  cbn [bind] in Hres.
  destruct (iloc_last_exn (ewm_mean 50 (closes df))) as [e|l50] eqn:H50;
    [discriminate|].
  cbn [bind] in Hres. unfold ret in Hres. inversion Hres. clear Hres.
  exists df, lc, lr, l20, l50. cbn.
  repeat split; auto using iloc_last_exn_ok.
Qed.

(** ** The fetch loop *)

Lemma attempt_fails : forall net req,
  fails (net req) -> exists e, attempt net req = inl e.
Proof.
  intros net req H. unfold attempt.
  destruct (net req) as [e | status_code body]; [eauto|].
  destruct (Z.eqb_spec status_code 200) as [-> | Hne]; simpl.
  - destruct H as [H | H]; [contradiction|].
    destruct body; try contradiction; eauto.
  - eauto.
Qed.

Lemma attempt_klines : forall net req rows,
  net req = Reply 200 (Klines rows) -> attempt net req = inr rows.
Proof. intros net req rows H. unfold attempt. now rewrite H. Qed.

Lemma get_klines_unfold : forall net symbol interval limit,
  get_klines net symbol interval limit
  = get_klines_loop net symbol (effective_interval interval) limit
      BINANCE_URLS None [].
Proof. reflexivity. Qed.

Section Loop.

Variable net : provider.
Variables symbol interval : string.
Variable limit : Z.

Let run := get_klines_loop net symbol interval limit.

(** Every request of the call carries its symbol, interval and limit. *)
Let tagged (r : request) : Prop :=
  req_symbol r = symbol /\ req_interval r = interval /\ req_limit r = limit.

(** The loop stops at the first endpoint that gives a frame: every request
    it issued before the one that succeeded has failed. *)
Lemma get_klines_loop_success :
  forall urls last log req df,
    (forall r, In r log -> exists e, attempt net r = inl e) ->
    In req (sent (run urls last log)) ->
    attempt net req = inr df ->
    fetched (run urls last log) = inr df.
Proof.
  unfold run.
  induction urls as [|url urls IH]; intros last log req df Hlog Hin Hok;
    cbn [get_klines_loop] in *.
  - simpl in Hin. destruct (Hlog _ Hin) as [e He]. congruence.
  - destruct (attempt net (mk_request url symbol interval limit))
      as [e | df'] eqn:Ha.
    + apply (IH (Some e) (log ++ [mk_request url symbol interval limit])%list req);
        auto.
      intros r Hr. apply in_app_or in Hr. destruct Hr as [Hr | [<- | []]];
        eauto.
    + simpl in Hin |- *. apply in_app_or in Hin.
      destruct Hin as [Hin | [<- | []]].
      * destruct (Hlog _ Hin) as [e He]. congruence.
      * unfold ret. congruence.
Qed.

Lemma get_klines_loop_requests :
  forall urls last log,
    Forall tagged log -> Forall tagged (sent (run urls last log)).
Proof.
  unfold run.
  induction urls as [|url urls IH]; intros last log Hlog;
    cbn [get_klines_loop]; [exact Hlog|].
  assert (Hlog' : Forall tagged
                    (log ++ [mk_request url symbol interval limit])%list).
  { apply Forall_app. split; [exact Hlog|]. repeat constructor. }
  destruct (attempt net (mk_request url symbol interval limit)); auto.
Qed.

End Loop.

Lemma effective_interval_other : forall interval,
  ~ In interval ALLOWED_INTERVALS -> effective_interval interval = "15m"%string.
Proof.
  intros interval H. unfold effective_interval.
  destruct (existsb (String.eqb interval) ALLOWED_INTERVALS) eqn:E;
    [|reflexivity].
  apply existsb_exists in E. destruct E as [x [Hx Heq]].
  apply String.eqb_eq in Heq. subst x. contradiction.
Qed.

Lemma effective_interval_allowed : forall interval,
  In interval ALLOWED_INTERVALS -> effective_interval interval = interval.
Proof.
  intros interval H. unfold effective_interval.
  destruct (existsb (String.eqb interval) ALLOWED_INTERVALS) eqn:E;
    [reflexivity|].
  assert (Hex : existsb (String.eqb interval) ALLOWED_INTERVALS = true).
  { apply existsb_exists. exists interval. split; [exact H|].
    apply String.eqb_refl. }
  congruence.
Qed.

(** C4.  In every call of [get_klines], when the first endpoint fails (a
    transport exception, a status other than 200, or a body that is not a
    list of candles) the second endpoint is asked next with the same
    symbol, interval and limit; when the second fails too the call raises
    [HTTPException] with status 500 and the fixed detail text, whatever
    errors were recorded on the way, and returns no frame. *)
Theorem get_klines_fallback :
  forall (net : provider) (symbol interval : string) (limit : Z),
    let req1 := first_request symbol interval limit in
    let req2 := second_request symbol interval limit in
    let f := get_klines net symbol interval limit in
    fails (net req1) ->
    sent f = [req1; req2] /\
    (req_symbol req2 = req_symbol req1 /\
     req_interval req2 = req_interval req1 /\
     req_limit req2 = req_limit req1) /\
    (fails (net req2) ->
     fetched f
     = inl (HTTPException 500 "Binance API error (all endpoints failed)") /\
     (exists e, last_error f = Some e) /\
     (forall df, fetched f <> inr df)).
Proof.
  intros net symbol interval limit req1 req2 f H1.
  subst f. rewrite get_klines_unfold. unfold BINANCE_URLS.
  cbn [get_klines_loop]. fold (first_request symbol interval limit).
  fold req1. destruct (attempt_fails net req1 H1) as [e1 He1]. rewrite He1.
  fold (second_request symbol interval limit). fold req2.
  split.
  { destruct (attempt net req2); reflexivity. }
  split; [repeat split|].
  intros H2. destruct (attempt_fails net req2 H2) as [e2 He2]. rewrite He2.
  simpl. repeat split; eauto. intros df; discriminate.
Qed.

Lemma get_klines_fallback_witness :
  fails (net_down (first_request "BTCUSDT" "1h" 200)) /\
  let req1 := first_request "BTCUSDT" "1h" 200 in
  let req2 := second_request "BTCUSDT" "1h" 200 in
  let f := get_klines net_down "BTCUSDT" "1h" 200 in
  sent f = [req1; req2] /\
  (req_symbol req2 = req_symbol req1 /\
   req_interval req2 = req_interval req1 /\
   req_limit req2 = req_limit req1) /\
  (fails (net_down req2) ->
   fetched f
   = inl (HTTPException 500 "Binance API error (all endpoints failed)") /\
   (exists e, last_error f = Some e) /\
   (forall df, fetched f <> inr df)).
Proof.
  assert (H : fails (net_down (first_request "BTCUSDT" "1h" 200)))
    by exact I.
  split; [exact H | exact (get_klines_fallback net_down "BTCUSDT" "1h" 200 H)].
Defined.

(** C5.  In every call of [get_klines] with an interval outside the
    allow-list, every request issued carries the interval 15m (and there is
    at least one), and the call ends exactly as the same call with 15m
    does: nothing is raised on account of the unrecognised value. *)
Theorem get_klines_interval_coerced :
  forall (net : provider) (symbol interval : string) (limit : Z),
    ~ In interval ALLOWED_INTERVALS ->
    let f := get_klines net symbol interval limit in
    sent f <> [] /\
    Forall (fun r => req_interval r = "15m"%string) (sent f) /\
    f = get_klines net symbol "15m" limit.
Proof.
  intros net symbol interval limit H f. subst f.
  rewrite !get_klines_unfold, (effective_interval_other _ H).
  split; [|split].
  - unfold BINANCE_URLS. cbn [get_klines_loop].
    destruct (attempt net _); simpl.
    + destruct (attempt net _); discriminate.
    + discriminate.
  - eapply Forall_impl;
      [|apply get_klines_loop_requests with (log := []); constructor].
    intros r [_ [Hr _]]. exact Hr.
  - reflexivity.
Qed.

Lemma get_klines_interval_coerced_witness :
  ~ In "2h"%string ALLOWED_INTERVALS /\
  let f := get_klines net_down "BTCUSDT" "2h" 200 in
  sent f <> [] /\
  Forall (fun r => req_interval r = "15m"%string) (sent f) /\
  f = get_klines net_down "BTCUSDT" "15m" 200.
Proof.
  assert (H : ~ In "2h"%string ALLOWED_INTERVALS).
  { simpl. intros [H | [H | [H | [H | []]]]]; discriminate H. }
  split; [exact H | exact (get_klines_interval_coerced net_down "BTCUSDT" "2h" 200 H)].
Defined.

(** ** The response *)

Lemma round2_is_2dp : forall x, is_2dp (round2 x).
Proof. intros x. exists (rint (x * 100)). reflexivity. Qed.

Lemma calculate_rsi_nth_range : forall closes i x,
  nth_error (calculate_rsi closes 14) i = Some x ->
  exists r, x = Fin r /\ 0 <= r <= 100.
Proof.
  intros closes i x H.
  assert (Hi : (i < length closes)%nat).
  { rewrite <- (calculate_rsi_length closes 14). apply nth_error_Some.
    congruence. }
  destruct (calculate_rsi_defined closes 14 i Hi) as [g [l [Hg [Hl Hr]]]].
  rewrite Hr in H. inversion H; subst x.
  apply rsi_point_range;
    [eapply rsi_avg_gain_nonneg | eapply rsi_avg_loss_nonneg]; eassumption.
Qed.

Lemma gtb_fin : forall a b, Float.gtb (Fin a) (Fin b) = true <-> b < a.
Proof.
  intros a b. cbn [Float.gtb]. rewrite Qgt_alt.
  destruct (Qcompare a b); split; intros H; congruence.
Qed.

Lemma ltb_fin : forall a b, Float.ltb (Fin a) (Fin b) = true <-> a < b.
Proof. intros a b. unfold Float.ltb. apply gtb_fin. Qed.

Lemma trend_of_bullish : forall ema20 ema50 rsi,
  trend_of ema20 ema50 (Fin rsi) = "Bullish"%string <->
  ema50 < ema20 /\ 55 < rsi.
Proof.
  intros ema20 ema50 rsi. unfold trend_of.
  rewrite <- (gtb_fin ema20 ema50), <- (gtb_fin rsi 55), <- andb_true_iff.
  destruct (Float.gtb (Fin ema20) (Fin ema50) && Float.gtb (Fin rsi) (Fin 55)).
  - split; reflexivity.
  - destruct (Float.ltb (Fin ema20) (Fin ema50) && Float.ltb (Fin rsi) (Fin 45));
      split; intros H; discriminate H.
Qed.

Lemma trend_of_bearish : forall ema20 ema50 rsi,
  trend_of ema20 ema50 (Fin rsi) = "Bearish"%string <->
  ema20 < ema50 /\ rsi < 45.
Proof.
  intros ema20 ema50 rsi. unfold trend_of.
  rewrite <- (ltb_fin ema20 ema50), <- (ltb_fin rsi 45), <- andb_true_iff.
  destruct (Float.gtb (Fin ema20) (Fin ema50) && Float.gtb (Fin rsi) (Fin 55))
    eqn:Hup.
  - apply andb_true_iff in Hup. destruct Hup as [Hup _].
    apply gtb_fin in Hup. split; [intros H; discriminate H|].
    intros H. apply andb_true_iff in H. destruct H as [H _].
    apply ltb_fin in H. lra.
  - destruct (Float.ltb (Fin ema20) (Fin ema50) && Float.ltb (Fin rsi) (Fin 45));
      split; intros H; try reflexivity; discriminate H.
Qed.

Lemma trend_of_cases : forall ema20 ema50 rsi,
  trend_of ema20 ema50 rsi = "Bullish"%string \/
  trend_of ema20 ema50 rsi = "Bearish"%string \/
  trend_of ema20 ema50 rsi = "Sideways"%string.
Proof.
  intros. unfold trend_of.
  destruct (_ && _); [now left|]. destruct (_ && _); [right; now left|].
  right; now right.
Qed.

Lemma trend_of_sideways : forall ema20 ema50 rsi,
  trend_of ema20 ema50 (Fin rsi) = "Sideways"%string <->
  ~ (ema50 < ema20 /\ 55 < rsi) /\ ~ (ema20 < ema50 /\ rsi < 45).
Proof.
  intros ema20 ema50 rsi.
  rewrite <- trend_of_bullish, <- trend_of_bearish.
  destruct (trend_of_cases ema20 ema50 (Fin rsi)) as [H | [H | H]];
    rewrite H; split;
    try (intros [H1 H2]; (now exfalso; apply H1) || (now exfalso; apply H2));
    try (intros H'; discriminate H');
    try reflexivity.
  intros _. split; intros H'; discriminate H'.
Qed.

(** C3 (as amended).  In every successful response the trend label is a
    function of the latest EMA20, EMA50 and RSI values after each has been
    rounded to two decimals, by the three-way rule: Bullish exactly when the
    rounded EMA20 is above the rounded EMA50 and the rounded RSI is above
    55, Bearish exactly when it is below and the rounded RSI is below 45,
    Sideways in every other case, among them equal rounded EMAs and a
    rounded RSI of exactly 55 or 45. *)
Theorem analyze_trend_rule :
  forall (net : provider) (symbol interval : string)
         (log : list request) (resp : response),
    analyze net symbol interval = (log, inr resp) ->
    exists (df : DataFrame) (last_ema20 last_ema50 last_rsi : Q),
      fetched (get_klines net (upper symbol) interval 200) = inr df /\
      iloc_last (ewm_mean 20 (closes df)) = Some last_ema20 /\
      iloc_last (ewm_mean 50 (closes df)) = Some last_ema50 /\
      iloc_last (calculate_rsi (closes df) 14) = Some (Fin last_rsi) /\
      let ema20 := round2 last_ema20 in
      let ema50 := round2 last_ema50 in
      let rsi := round2 last_rsi in
      (r_trend resp = "Bullish"%string <-> ema20 > ema50 /\ rsi > 55) /\
      (r_trend resp = "Bearish"%string <-> ema20 < ema50 /\ rsi < 45) /\
      (r_trend resp = "Sideways"%string <->
       ~ (ema20 > ema50 /\ rsi > 55) /\ ~ (ema20 < ema50 /\ rsi < 45)) /\
      (ema20 == ema50 \/ rsi == 55 \/ rsi == 45 ->
       r_trend resp = "Sideways"%string).
Proof.
  intros net symbol interval log resp H.
  destruct (analyze_ok _ _ _ _ _ H)
    as (df & lc & lr & l20 & l50 & Hdf & _ & _ & Hlr & H20 & H50 & _ & _
        & Htrend & _).
  destruct (calculate_rsi_nth_range _ _ _ Hlr) as [r [-> _]].
  exists df, l20, l50, r. repeat (split; [assumption|]).
  cbn zeta. rewrite Htrend. cbn [fround2].
  split; [apply trend_of_bullish|]. split; [apply trend_of_bearish|].
  split; [apply trend_of_sideways|].
  intros Hb. apply trend_of_sideways. split; intros [H1 H2]; lra.
Qed.

(** *** Concrete providers *)

Lemma analyze_trend_rule_witness :
  exists (log : list request) (resp : response),
    analyze (net_klines rising15) "btcusdt" "1h" = (log, inr resp) /\
    exists (df : DataFrame) (last_ema20 last_ema50 last_rsi : Q),
      fetched (get_klines (net_klines rising15) (upper "btcusdt") "1h" 200)
      = inr df /\
      iloc_last (ewm_mean 20 (closes df)) = Some last_ema20 /\
      iloc_last (ewm_mean 50 (closes df)) = Some last_ema50 /\
      iloc_last (calculate_rsi (closes df) 14) = Some (Fin last_rsi) /\
      let ema20 := round2 last_ema20 in
      let ema50 := round2 last_ema50 in
      let rsi := round2 last_rsi in
      (r_trend resp = "Bullish"%string <-> ema20 > ema50 /\ rsi > 55) /\
      (r_trend resp = "Bearish"%string <-> ema20 < ema50 /\ rsi < 45) /\
      (r_trend resp = "Sideways"%string <->
       ~ (ema20 > ema50 /\ rsi > 55) /\ ~ (ema20 < ema50 /\ rsi < 45)) /\
      (ema20 == ema50 \/ rsi == 55 \/ rsi == 45 ->
       r_trend resp = "Sideways"%string).
Proof.
  destruct (analyze (net_klines rising15) "btcusdt" "1h") as [log [e | resp]] eqn:E;
    [vm_compute in E; discriminate E|].
  exists log, resp. split; [reflexivity|].
  exact (analyze_trend_rule (net_klines rising15) "btcusdt" "1h" log resp E).
Defined.

(** C3 (as stated) fails: after fourteen closes of 0.001 and one of 0.002
    the latest EMA20 is above the latest EMA50 and the latest RSI is 100,
    above 55, yet the label is Sideways: both EMAs round to 0.00 before they
    are compared. *)
Lemma analyze_trend_compares_rounded :
  exists (log : list request) (resp : response)
         (last_ema20 last_ema50 last_rsi : Q),
    analyze (net_klines flat_then_up) "DOGEUSDT" "15m" = (log, inr resp) /\
    iloc_last (ewm_mean 20 flat_then_up) = Some last_ema20 /\
    iloc_last (ewm_mean 50 flat_then_up) = Some last_ema50 /\
    iloc_last (calculate_rsi flat_then_up 14) = Some (Fin last_rsi) /\
    (last_ema20 > last_ema50 /\ last_rsi > 55) /\
    r_trend resp = "Sideways"%string /\
    r_trend resp <> "Bullish"%string.
Proof.
  do 5 eexists.
  split; [vm_compute; reflexivity|].
  split; [vm_compute; reflexivity|].
  split; [vm_compute; reflexivity|].
  split; [vm_compute; reflexivity|].
  split; [split; vm_compute; reflexivity|].
  split; [reflexivity | discriminate].
Qed.

(** *** The interval of the response *)

Lemma get_klines_sent_nonempty : forall net symbol interval limit,
  sent (get_klines net symbol interval limit) <> [].
Proof.
  intros. rewrite get_klines_unfold. unfold BINANCE_URLS.
  cbn [get_klines_loop].
  destruct (attempt net _); simpl; [|discriminate].
  destruct (attempt net _); discriminate.
Qed.

Lemma get_klines_sent_interval : forall net symbol interval limit,
  Forall (fun r => req_interval r = effective_interval interval)
    (sent (get_klines net symbol interval limit)).
Proof.
  intros. rewrite get_klines_unfold.
  eapply Forall_impl;
    [|apply get_klines_loop_requests with (log := []); constructor].
  intros r [_ [Hr _]]. exact Hr.
Qed.

(** C6 (as amended).  In every successful response the interval field is
    the interval parameter of the request as it was received.  It is the
    interval used for the fetch when the parameter is in the allow-list;
    for any other parameter the fetch uses 15m while the response still
    carries the parameter, which is not 15m. *)
Theorem analyze_interval_echoed :
  forall (net : provider) (symbol interval : string)
         (log : list request) (resp : response),
    analyze net symbol interval = (log, inr resp) ->
    r_interval resp = interval /\
    log <> [] /\
    (In interval ALLOWED_INTERVALS ->
     Forall (fun r => req_interval r = r_interval resp) log) /\
    (~ In interval ALLOWED_INTERVALS ->
     Forall (fun r => req_interval r = "15m"%string) log /\
     r_interval resp <> "15m"%string).
Proof.
  intros net symbol interval log resp H.
  destruct (analyze_ok _ _ _ _ _ H)
    as (df & lc & lr & l20 & l50 & _ & Hlog & _ & _ & _ & _ & _ & Hint & _).
  subst log. rewrite Hint.
  split; [reflexivity|]. split; [apply get_klines_sent_nonempty|].
  split.
  - intros Hin.
    pose proof (get_klines_sent_interval net (upper symbol) interval 200) as Hs.
    now rewrite (effective_interval_allowed _ Hin) in Hs.
  - intros Hout. split.
    + pose proof (get_klines_sent_interval net (upper symbol) interval 200)
        as Hs.
      now rewrite (effective_interval_other _ Hout) in Hs.
    + intros ->. apply Hout. simpl. auto.
Qed.

Lemma analyze_interval_echoed_witness :
  exists (log : list request) (resp : response),
    analyze (net_klines [100]) "btcusdt" "2h" = (log, inr resp) /\
    r_interval resp = "2h"%string /\
    log <> [] /\
    (In "2h"%string ALLOWED_INTERVALS ->
     Forall (fun r => req_interval r = r_interval resp) log) /\
    (~ In "2h"%string ALLOWED_INTERVALS ->
     Forall (fun r => req_interval r = "15m"%string) log /\
     r_interval resp <> "15m"%string).
Proof.
  destruct (analyze (net_klines [100]) "btcusdt" "2h") as [log [e | resp]] eqn:E;
    [vm_compute in E; discriminate E|].
  exists log, resp. split; [reflexivity|].
  exact (analyze_interval_echoed (net_klines [100]) "btcusdt" "2h" log resp E).
Defined.

(** C6 (as stated) fails: a request with interval 2h, which is not in the
    allow-list, is fetched with 15m and answered with interval 2h. *)
Lemma analyze_interval_not_normalized :
  exists (log : list request) (resp : response),
    analyze (net_klines [100]) "BTCUSDT" "2h" = (log, inr resp) /\
    ~ In "2h"%string ALLOWED_INTERVALS /\
    map req_interval log = ["15m"%string] /\
    r_interval resp = "2h"%string /\
    r_interval resp <> "15m"%string.
Proof.
  do 2 eexists.
  split; [vm_compute; reflexivity|].
  split.
  { simpl. intros [H | [H | [H | [H | []]]]]; discriminate H. }
  split; [reflexivity|]. split; [reflexivity | discriminate].
Qed.

(** *** An empty candle list *)

(** C9.  When an endpoint that [analyze] asked answers 200 with an empty
    list of candles, the access to the latest close raises [IndexError];
    [analyze] ends with that exception, nothing in the program catches it,
    and the client gets the bare server error, not a JSON error body. *)
Theorem analyze_empty_candles :
  forall (net : provider) (symbol interval : string) (req : request),
    In req (fst (analyze net symbol interval)) ->
    net req = Reply 200 (Klines []) ->
    snd (analyze net symbol interval)
    = inl (IndexError "single positional indexer is out-of-bounds") /\
    serve (snd (analyze net symbol interval)) = Unstructured500 /\
    (forall status_code detail,
        serve (snd (analyze net symbol interval))
        <> JsonError status_code detail).
Proof.
  intros net symbol interval req Hin Hnet.
  unfold analyze in *. cbn [fst snd] in *.
  rewrite get_klines_unfold in *.
  rewrite (get_klines_loop_success net (upper symbol)
             (effective_interval interval) 200 BINANCE_URLS None [] req []);
    [| intros r [] | exact Hin | now apply attempt_klines].
  cbn. repeat split. intros status_code detail H; discriminate H.
Qed.

Lemma analyze_empty_candles_witness :
  (In (first_request "BTCUSDT" "1h" 200)
      (fst (analyze (net_klines []) "btcusdt" "1h")) /\
   net_klines [] (first_request "BTCUSDT" "1h" 200) = Reply 200 (Klines [])) /\
  snd (analyze (net_klines []) "btcusdt" "1h")
  = inl (IndexError "single positional indexer is out-of-bounds") /\
  serve (snd (analyze (net_klines []) "btcusdt" "1h")) = Unstructured500 /\
  (forall status_code detail,
      serve (snd (analyze (net_klines []) "btcusdt" "1h"))
      <> JsonError status_code detail).
Proof.
  assert (H1 : In (first_request "BTCUSDT" "1h" 200)
                 (fst (analyze (net_klines []) "btcusdt" "1h")))
    by (left; reflexivity).
  assert (H2 : net_klines [] (first_request "BTCUSDT" "1h" 200)
               = Reply 200 (Klines [])) by reflexivity.
  split; [split; [exact H1 | exact H2]|].
  exact (analyze_empty_candles (net_klines []) "btcusdt" "1h" _ H1 H2).
Defined.

(** *** The four trailing lists *)

Lemma tail_length : forall {A} (n : nat) (s : list A),
  length (tail n s) = Nat.min n (length s).
Proof. intros A n s. unfold tail. rewrite length_skipn. lia. Qed.

Lemma tail_nth : forall {A} (n : nat) (s : list A) (i : nat),
  nth_error (tail n s) i = nth_error s (length s - Nat.min n (length s) + i).
Proof.
  intros A n s i. unfold tail. rewrite nth_error_skipn.
  f_equal. lia.
Qed.

(** C10.  In every successful response over [n] fetched candles, prices,
    ema20_list, ema50_list and rsi_list all have length [min 30 n], and
    their elements at position [i] are the close of the candle at position
    [n - min 30 n + i] and the values of the EMA20, EMA50 and RSI series at
    that same position: the lists run over the same last candles, oldest
    first. *)
Theorem analyze_lists_aligned :
  forall (net : provider) (symbol interval : string)
         (log : list request) (resp : response),
    analyze net symbol interval = (log, inr resp) ->
    exists df : DataFrame,
      fetched (get_klines net (upper symbol) interval 200) = inr df /\
      let n := length df in
      let m := Nat.min 30 n in
      (1 <= n)%nat /\
      length (r_prices resp) = m /\
      length (r_ema20_list resp) = m /\
      length (r_ema50_list resp) = m /\
      length (r_rsi_list resp) = m /\
      length (ewm_mean 20 (closes df)) = n /\
      length (ewm_mean 50 (closes df)) = n /\
      length (calculate_rsi (closes df) 14) = n /\
      forall i : nat,
        (i < m)%nat ->
        nth_error (r_prices resp) i
        = option_map k_close (nth_error df (n - m + i)) /\
        nth_error (r_ema20_list resp) i
        = nth_error (ewm_mean 20 (closes df)) (n - m + i) /\
        nth_error (r_ema50_list resp) i
        = nth_error (ewm_mean 50 (closes df)) (n - m + i) /\
        nth_error (r_rsi_list resp) i
        = nth_error (calculate_rsi (closes df) 14) (n - m + i).
Proof.
  intros net symbol interval log resp H.
  destruct (analyze_ok _ _ _ _ _ H)
    as (df & lc & lr & l20 & l50 & Hdf & _ & Hlc & _ & _ & _ & _ & _ & _
        & _ & _ & _ & _ & _ & Hp & H20 & H50 & Hr).
  exists df. split; [exact Hdf|]. cbn zeta.
  assert (Hn : length (closes df) = length df) by apply length_map.
  rewrite Hp, H20, H50, Hr, !tail_length.
  rewrite !ewm_mean_length, calculate_rsi_length, Hn.
  split.
  { apply iloc_last_nonempty in Hlc. destruct df; [contradiction|simpl; lia]. }
  repeat (split; [reflexivity|]).
  intros i Hi. rewrite !tail_nth.
  rewrite !ewm_mean_length, calculate_rsi_length, Hn.
  repeat split. unfold closes. apply nth_error_map.
Qed.

Lemma analyze_lists_aligned_witness :
  exists (log : list request) (resp : response),
    analyze (net_klines rising40) "btcusdt" "1h" = (log, inr resp) /\
    exists df : DataFrame,
      fetched (get_klines (net_klines rising40) (upper "btcusdt") "1h" 200)
      = inr df /\
      let n := length df in
      let m := Nat.min 30 n in
      (1 <= n)%nat /\
      length (r_prices resp) = m /\
      length (r_ema20_list resp) = m /\
      length (r_ema50_list resp) = m /\
      length (r_rsi_list resp) = m /\
      length (ewm_mean 20 (closes df)) = n /\
      length (ewm_mean 50 (closes df)) = n /\
      length (calculate_rsi (closes df) 14) = n /\
      forall i : nat,
        (i < m)%nat ->
        nth_error (r_prices resp) i
        = option_map k_close (nth_error df (n - m + i)) /\
        nth_error (r_ema20_list resp) i
        = nth_error (ewm_mean 20 (closes df)) (n - m + i) /\
        nth_error (r_ema50_list resp) i
        = nth_error (ewm_mean 50 (closes df)) (n - m + i) /\
        nth_error (r_rsi_list resp) i
        = nth_error (calculate_rsi (closes df) 14) (n - m + i).
Proof.
  destruct (analyze (net_klines rising40) "btcusdt" "1h")
    as [log [e | resp]] eqn:E; [vm_compute in E; discriminate E|].
  exists log, resp. split; [reflexivity|].
  exact (analyze_lists_aligned (net_klines rising40) "btcusdt" "1h" log resp E).
Defined.

(** *** The moving averages of the response *)

Lemma ewm_alpha_20 : ewm_alpha 20 == 2 # 21.
Proof. reflexivity. Qed.

Lemma ewm_alpha_50 : ewm_alpha 50 == 2 # 51.
Proof. reflexivity. Qed.

(** C2.  In every successful response over a frame of [n] candles,
    ema20_list and ema50_list are the last 30 values of two series that
    [analyze] computes over all the closes of the frame, with span 20 and
    span 50: each series holds a value at every position of the frame (none
    is blanked), its first value is the first close, and every later value
    is [alpha*close[i] + (1-alpha)*ema[i-1]] with [alpha = 2/(span+1)].  The
    lists of the response show it: from their second entries on, each
    entry of ema20_list is 2/21 of the entry of prices beside it plus 19/21
    of the entry before it, and each entry of ema50_list is 2/51 of the
    entry of prices plus 49/51 of the entry before it. *)
Theorem analyze_ema_recurrence :
  forall (net : provider) (symbol interval : string)
         (log : list request) (resp : response),
    analyze net symbol interval = (log, inr resp) ->
    exists (df : DataFrame) (ema20 ema50 : list Q),
      fetched (get_klines net (upper symbol) interval 200) = inr df /\
      r_prices resp = tail 30 (closes df) /\
      r_ema20_list resp = tail 30 ema20 /\
      r_ema50_list resp = tail 30 ema50 /\
      (forall (span : Z) (ema : list Q),
          (span = 20%Z /\ ema = ema20) \/ (span = 50%Z /\ ema = ema50) ->
          let alpha := 2 / (inject_Z span + 1) in
          length ema = length df /\
          nth_error ema 0 = nth_error (closes df) 0 /\
          forall i : nat,
            (0 < i < length df)%nat ->
            exists c prev e : Q,
              nth_error (closes df) i = Some c /\
              nth_error ema (i - 1) = Some prev /\
              nth_error ema i = Some e /\
              e == alpha * c + (1 - alpha) * prev) /\
      (forall i : nat,
          (0 < i < length (r_prices resp))%nat ->
          exists c p20 e20 p50 e50 : Q,
            nth_error (r_prices resp) i = Some c /\
            nth_error (r_ema20_list resp) (i - 1) = Some p20 /\
            nth_error (r_ema20_list resp) i = Some e20 /\
            nth_error (r_ema50_list resp) (i - 1) = Some p50 /\
            nth_error (r_ema50_list resp) i = Some e50 /\
            e20 == (2 # 21) * c + (19 # 21) * p20 /\
            e50 == (2 # 51) * c + (49 # 51) * p50).
Proof.
  intros net symbol interval log resp H.
  destruct (analyze_ok _ _ _ _ _ H)
    as (df & lc & lr & l20 & l50 & Hdf & _ & Hlc & _ & _ & _ & _ & _ & _
        & _ & _ & _ & _ & _ & Hp & H20 & H50 & _).
  assert (Hne : closes df <> []) by (eapply iloc_last_nonempty, Hlc).
  assert (Hn : length (closes df) = length df) by apply length_map.
  exists df, (ewm_mean 20 (closes df)), (ewm_mean 50 (closes df)).
  repeat (split; [assumption|]). split.
  - intros span ema Hspan alpha.
    assert (Hs : (span = 20 \/ span = 50)%Z) by (destruct Hspan as [[? _]|[? _]]; auto).
    assert (He : ema = ewm_mean span (closes df)).
    { destruct Hspan as [[-> ->]|[-> ->]]; reflexivity. }
    subst ema. rewrite <- Hn. exact (ewm_mean_recurrence span (closes df) Hs Hne).
  - intros i Hi. rewrite Hp, H20, H50 in *. rewrite tail_length, Hn in Hi.
    rewrite !tail_nth, !ewm_mean_length, Hn.
    set (off := (length df - Nat.min 30 (length df))%nat).
    assert (Hidx : (0 < off + i < length (closes df))%nat) by (subst off; lia).
    destruct (ewm_mean_recurrence 20 (closes df) (or_introl eq_refl) Hne)
      as (_ & _ & R20).
    destruct (ewm_mean_recurrence 50 (closes df) (or_intror eq_refl) Hne)
      as (_ & _ & R50).
    destruct (R20 _ Hidx) as (c & p20 & e20 & Hc & Hp20 & He20 & E20).
    destruct (R50 _ Hidx) as (c' & p50 & e50 & Hc' & Hp50 & He50 & E50).
    rewrite Hc in Hc'. inversion Hc'; subst c'.
    replace (off + i - 1)%nat with (off + (i - 1))%nat in Hp20, Hp50 by lia.
    exists c, p20, e20, p50, e50. do 5 (split; [assumption|]).
    split.
    + rewrite E20. fold (ewm_alpha 20). rewrite ewm_alpha_20. ring.
    + rewrite E50. fold (ewm_alpha 50). rewrite ewm_alpha_50. ring.
Qed.

Lemma analyze_ema_recurrence_witness :
  exists (log : list request) (resp : response),
    analyze (net_klines rising40) "btcusdt" "1h" = (log, inr resp) /\
    exists (df : DataFrame) (ema20 ema50 : list Q),
      fetched (get_klines (net_klines rising40) (upper "btcusdt") "1h" 200)
      = inr df /\
      r_prices resp = tail 30 (closes df) /\
      r_ema20_list resp = tail 30 ema20 /\
      r_ema50_list resp = tail 30 ema50 /\
      (forall (span : Z) (ema : list Q),
          (span = 20%Z /\ ema = ema20) \/ (span = 50%Z /\ ema = ema50) ->
          let alpha := 2 / (inject_Z span + 1) in
          length ema = length df /\
          nth_error ema 0 = nth_error (closes df) 0 /\
          forall i : nat,
            (0 < i < length df)%nat ->
            exists c prev e : Q,
              nth_error (closes df) i = Some c /\
              nth_error ema (i - 1) = Some prev /\
              nth_error ema i = Some e /\
              e == alpha * c + (1 - alpha) * prev) /\
      (forall i : nat,
          (0 < i < length (r_prices resp))%nat ->
          exists c p20 e20 p50 e50 : Q,
            nth_error (r_prices resp) i = Some c /\
            nth_error (r_ema20_list resp) (i - 1) = Some p20 /\
            nth_error (r_ema20_list resp) i = Some e20 /\
            nth_error (r_ema50_list resp) (i - 1) = Some p50 /\
            nth_error (r_ema50_list resp) i = Some e50 /\
            e20 == (2 # 21) * c + (19 # 21) * p20 /\
            e50 == (2 # 51) * c + (49 # 51) * p50).
Proof.
  destruct (analyze (net_klines rising40) "btcusdt" "1h")
    as [log [e | resp]] eqn:E; [vm_compute in E; discriminate E|].
  exists log, resp. split; [reflexivity|].
  exact (analyze_ema_recurrence (net_klines rising40) "btcusdt" "1h" log resp E).
Defined.

(** *** Rounding and the price levels of the response *)

Lemma rint_error : forall x,
  - (1 # 2) <= inject_Z (rint x) - x /\ inject_Z (rint x) - x <= 1 # 2.
Proof.
  intros x. pose proof (Qfloor_le x) as Hlo. pose proof (Qlt_floor x) as Hhi.
  rewrite inject_Z_plus in Hhi. change (inject_Z 1) with 1 in Hhi.
  unfold rint.
  destruct (Qcompare_spec (x - inject_Z (Qfloor x)) (1 # 2)) as [H | H | H].
  - destruct (Z.even (Qfloor x)).
    + split; lra.
    + rewrite inject_Z_plus. change (inject_Z 1) with 1. split; lra.
  - split; lra.
  - rewrite inject_Z_plus. change (inject_Z 1) with 1. split; lra.
Qed.

Lemma hundredths : forall z, z # 100 == inject_Z z * (1 # 100).
Proof. intros z. unfold Qeq. simpl. lia. Qed.

Lemma round2_error : forall x,
  - (1 # 200) <= round2 x - x /\ round2 x - x <= 1 # 200.
Proof.
  intros x. destruct (rint_error (x * 100)) as [Hlo Hhi].
  unfold round2. rewrite hundredths. split; lra.
Qed.

Lemma iloc_last_tail : forall {A} (n : nat) (s : list A),
  (1 <= n)%nat -> iloc_last (tail n s) = iloc_last s.
Proof.
  intros A n s Hn. unfold iloc_last.
  rewrite tail_nth, tail_length. f_equal. lia.
Qed.

Lemma round2_eq_100 : forall x, round2 x == 100 -> round2 x = 10000 # 100.
Proof.
  intros x H. unfold round2 in *. unfold Qeq in H. simpl in H.
  f_equal. lia.
Qed.

Lemma round2_rounds_to : forall x, rounds_to x (round2 x).
Proof.
  intros x. destruct (round2_error x) as [Hlo Hhi].
  split; [apply round2_is_2dp|]. split; lra.
Qed.

(** C7 (as amended).  In every successful response, entry is the latest
    close rounded to two decimals, and stoploss and target are functions of
    that entry price E and of whether the interval is 1d, of nothing else:
    they are E times 0.97 and E times 1.06 when the interval is 1d, E times
    0.98 and E times 1.03 otherwise, each rounded to two decimals (for
    values up to 10^9, a whole number of hundredths within half a cent of
    the product, the margin of the double arithmetic included).  For
    interval 1d and entry 100.00 they are 97.00 and 106.00, for interval
    15m and entry 100.00 they are 98.00 and 103.00. *)
Theorem analyze_price_levels :
  forall (net : provider) (symbol interval : string)
         (log : list request) (resp : response),
    analyze net symbol interval = (log, inr resp) ->
    let E := r_entry resp in
    (exists P : Q,
        iloc_last (r_prices resp) = Some P /\
        (moderate P -> rounds_to P E)) /\
    (moderate E -> interval = "1d"%string ->
     rounds_to (E * (97 # 100)) (r_stoploss resp) /\
     rounds_to (E * (106 # 100)) (r_target resp)) /\
    (moderate E -> interval <> "1d"%string ->
     rounds_to (E * (98 # 100)) (r_stoploss resp) /\
     rounds_to (E * (103 # 100)) (r_target resp)) /\
    (forall (net' : provider) (symbol' interval' : string)
            (log' : list request) (resp' : response),
        analyze net' symbol' interval' = (log', inr resp') ->
        r_entry resp' = E ->
        (interval' =? "1d")%string = (interval =? "1d")%string ->
        r_stoploss resp' = r_stoploss resp /\
        r_target resp' = r_target resp) /\
    (interval = "1d"%string -> E == 100 ->
     r_stoploss resp == 97 /\ r_target resp == 106) /\
    (interval = "15m"%string -> E == 100 ->
     r_stoploss resp == 98 /\ r_target resp == 103).
Proof.
  intros net symbol interval log resp H E. subst E.
  destruct (analyze_ok _ _ _ _ _ H)
    as (df & lc & lr & l20 & l50 & _ & _ & Hlc & _ & _ & _ & _ & _ & _
        & Hentry & Hstop & Htarget & _ & _ & Hp & _).
  split; [|split; [|split; [|split; [|split]]]].
  - exists lc. rewrite Hp, iloc_last_tail by lia. split; [exact Hlc|].
    intros _. rewrite Hentry. apply round2_rounds_to.
  - intros _ ->. rewrite Hstop, Htarget, Hentry.
    split; apply round2_rounds_to.
  - intros _ Hne. apply String.eqb_neq in Hne.
    rewrite Hstop, Htarget, Hentry, Hne. split; apply round2_rounds_to.
  - intros net' symbol' interval' log' resp' H' HE Hd.
    destruct (analyze_ok _ _ _ _ _ H')
      as (df' & lc' & lr' & l20' & l50' & _ & _ & _ & _ & _ & _ & _ & _ & _
          & Hentry' & Hstop' & Htarget' & _).
    rewrite Hstop', Htarget', Hstop, Htarget, Hd.
    rewrite Hentry', Hentry in HE. rewrite HE. split; reflexivity.
  - intros -> HE. rewrite Hstop, Htarget. rewrite Hentry in HE.
    rewrite (round2_eq_100 _ HE). split; reflexivity.
  - intros -> HE. rewrite Hstop, Htarget. rewrite Hentry in HE.
    rewrite (round2_eq_100 _ HE). split; reflexivity.
Qed.

Lemma analyze_price_levels_witness :
  exists (log : list request) (resp : response),
    analyze (net_klines [close_100_0078]) "btcusdt" "1d" = (log, inr resp) /\
    let E := r_entry resp in
    (exists P : Q,
        iloc_last (r_prices resp) = Some P /\
        (moderate P -> rounds_to P E)) /\
    (moderate E -> "1d"%string = "1d"%string ->
     rounds_to (E * (97 # 100)) (r_stoploss resp) /\
     rounds_to (E * (106 # 100)) (r_target resp)) /\
    (moderate E -> "1d"%string <> "1d"%string ->
     rounds_to (E * (98 # 100)) (r_stoploss resp) /\
     rounds_to (E * (103 # 100)) (r_target resp)) /\
    (forall (net' : provider) (symbol' interval' : string)
            (log' : list request) (resp' : response),
        analyze net' symbol' interval' = (log', inr resp') ->
        r_entry resp' = E ->
        (interval' =? "1d")%string = ("1d" =? "1d")%string ->
        r_stoploss resp' = r_stoploss resp /\
        r_target resp' = r_target resp) /\
    ("1d"%string = "1d"%string -> E == 100 ->
     r_stoploss resp == 97 /\ r_target resp == 106) /\
    ("1d"%string = "15m"%string -> E == 100 ->
     r_stoploss resp == 98 /\ r_target resp == 103).
Proof.
  destruct (analyze (net_klines [close_100_0078]) "btcusdt" "1d")
    as [log [e | resp]] eqn:E; [vm_compute in E; discriminate E|].
  exists log, resp. split; [reflexivity|].
  exact (analyze_price_levels (net_klines [close_100_0078]) "btcusdt" "1d"
           log resp E).
Defined.

(** C7 (as stated) fails: for a latest close P = 100.0051 on the 1d
    interval the stoploss of the response is 97.01, while P * 0.97 rounded
    to two decimals is 97.00: the code multiplies the price it has already
    rounded to 100.01. *)
Lemma analyze_stoploss_from_rounded_price :
  exists (log : list request) (resp : response) (P : Q),
    analyze (net_klines [1000051 # 10000]) "BTCUSDT" "1d" = (log, inr resp) /\
    iloc_last [1000051 # 10000] = Some P /\
    r_stoploss resp == 9701 # 100 /\
    round2 (P * (97 # 100)) == 97 /\
    ~ r_stoploss resp == round2 (P * (97 # 100)).
Proof.
  do 3 eexists.
  split; [vm_compute; reflexivity|].
  split; [vm_compute; reflexivity|].
  split; [vm_compute; reflexivity|].
  split; [vm_compute; reflexivity|].
  vm_compute. intros H; discriminate H.
Qed.

Lemma numbers_generate_explanation : forall trend rsi ema20 ema50 interval,
  numbers (generate_explanation trend rsi ema20 ema50 interval)
  = [Fin ema20; Fin ema50; rsi] \/
  numbers (generate_explanation trend rsi ema20 ema50 interval) = [rsi].
Proof.
  intros. unfold generate_explanation.
  destruct (trend =? "Bullish")%string; [now left|].
  destruct (trend =? "Bearish")%string; [now left | now right].
Qed.

(** C8 (as amended).  In every successful response the monetary outputs
    and the quoted indicator values are rounded to two decimals: entry is
    the last value of prices rounded, stoploss and target are the entry
    times the factor of the interval rounded, the RSI quoted in confidence
    and in the explanation is the last value of rsi_list rounded, and the
    EMA values quoted in the explanation are the last values of ema20_list
    and ema50_list rounded (for values up to 10^9: a whole number of
    hundredths within half a cent of the value, the margin of the double
    arithmetic included).  The values of prices, ema20_list, ema50_list and
    rsi_list themselves are the last 30 values of the series as computed,
    without rounding. *)
Theorem analyze_rounding :
  forall (net : provider) (symbol interval : string)
         (log : list request) (resp : response),
    analyze net symbol interval = (log, inr resp) ->
    (exists P : Q,
        iloc_last (r_prices resp) = Some P /\
        (moderate P -> rounds_to P (r_entry resp))) /\
    (exists down up : Q,
        ((interval = "1d"%string /\ down == 97 # 100 /\ up == 106 # 100) \/
         (interval <> "1d"%string /\ down == 98 # 100 /\ up == 103 # 100)) /\
        (moderate (r_entry resp) ->
         rounds_to (r_entry resp * down) (r_stoploss resp) /\
         rounds_to (r_entry resp * up) (r_target resp))) /\
    (exists (x y : fl) (e20 e50 q20 q50 : Q),
        iloc_last (r_rsi_list resp) = Some x /\
        iloc_last (r_ema20_list resp) = Some e20 /\
        iloc_last (r_ema50_list resp) = Some e50 /\
        r_confidence resp = [Txt "RSI "; Num y] /\
        (numbers (r_explanation resp) = [Fin q20; Fin q50; y] \/
         numbers (r_explanation resp) = [y]) /\
        (forall r : Q, x = Fin r -> moderate r ->
                       exists q : Q, y = Fin q /\ rounds_to r q) /\
        (moderate e20 -> rounds_to e20 q20) /\
        (moderate e50 -> rounds_to e50 q50)) /\
    exists df : DataFrame,
      fetched (get_klines net (upper symbol) interval 200) = inr df /\
      r_prices resp = tail 30 (closes df) /\
      r_ema20_list resp = tail 30 (ewm_mean 20 (closes df)) /\
      r_ema50_list resp = tail 30 (ewm_mean 50 (closes df)) /\
      r_rsi_list resp = tail 30 (calculate_rsi (closes df) 14).
Proof.
  intros net symbol interval log resp H.
  destruct (analyze_ok _ _ _ _ _ H)
    as (df & lc & lr & l20 & l50 & Hdf & _ & Hlc & Hlr & Hl20 & Hl50 & _ & _
        & _ & Hentry & Hstop & Htarget & Hconf & Hexpl & Hp & H20 & H50 & Hr).
  split; [|split; [|split]].
  - exists lc. rewrite Hp, iloc_last_tail by lia. split; [exact Hlc|].
    intros _. rewrite Hentry. apply round2_rounds_to.
  - destruct (string_dec interval "1d") as [Hd | Hd].
    + exists (97 # 100), (106 # 100). split.
      { left. split; [exact Hd | split; reflexivity]. }
      intros _. rewrite Hstop, Htarget, Hentry, Hd.
      split; apply round2_rounds_to.
    + exists (98 # 100), (103 # 100). split.
      { right. split; [exact Hd | split; reflexivity]. }
      intros _. apply String.eqb_neq in Hd.
      rewrite Hstop, Htarget, Hentry, Hd. split; apply round2_rounds_to.
  - exists lr, (fround2 lr), l20, l50, (round2 l20), (round2 l50).
    rewrite H20, H50, Hr, !iloc_last_tail by lia.
    repeat (split; [assumption|]).
    split; [rewrite Hexpl; apply numbers_generate_explanation|].
    split; [|split; intros _; apply round2_rounds_to].
    intros r -> _. exists (round2 r). split; [reflexivity|].
    apply round2_rounds_to.
  - exists df. repeat split; assumption.
Qed.

Lemma analyze_rounding_witness :
  exists (log : list request) (resp : response),
    analyze (net_klines [close_100_0078]) "btcusdt" "1d" = (log, inr resp) /\
    (exists P : Q,
        iloc_last (r_prices resp) = Some P /\
        (moderate P -> rounds_to P (r_entry resp))) /\
    (exists down up : Q,
        (("1d"%string = "1d"%string /\ down == 97 # 100 /\ up == 106 # 100) \/
         ("1d"%string <> "1d"%string /\ down == 98 # 100 /\ up == 103 # 100)) /\
        (moderate (r_entry resp) ->
         rounds_to (r_entry resp * down) (r_stoploss resp) /\
         rounds_to (r_entry resp * up) (r_target resp))) /\
    (exists (x y : fl) (e20 e50 q20 q50 : Q),
        iloc_last (r_rsi_list resp) = Some x /\
        iloc_last (r_ema20_list resp) = Some e20 /\
        iloc_last (r_ema50_list resp) = Some e50 /\
        r_confidence resp = [Txt "RSI "; Num y] /\
        (numbers (r_explanation resp) = [Fin q20; Fin q50; y] \/
         numbers (r_explanation resp) = [y]) /\
        (forall r : Q, x = Fin r -> moderate r ->
                       exists q : Q, y = Fin q /\ rounds_to r q) /\
        (moderate e20 -> rounds_to e20 q20) /\
        (moderate e50 -> rounds_to e50 q50)) /\
    exists df : DataFrame,
      fetched (get_klines (net_klines [close_100_0078]) (upper "btcusdt")
                 "1d" 200) = inr df /\
      r_prices resp = tail 30 (closes df) /\
      r_ema20_list resp = tail 30 (ewm_mean 20 (closes df)) /\
      r_ema50_list resp = tail 30 (ewm_mean 50 (closes df)) /\
      r_rsi_list resp = tail 30 (calculate_rsi (closes df) 14).
Proof.
  destruct (analyze (net_klines [close_100_0078]) "btcusdt" "1d")
    as [log [e | resp]] eqn:E; [vm_compute in E; discriminate E|].
  exists log, resp. split; [reflexivity|].
  exact (analyze_rounding (net_klines [close_100_0078]) "btcusdt" "1d"
           log resp E).
Defined.

(** C8 (as stated) fails: a single candle closing at 100.0051 comes back in
    prices (and in ema20_list) as 100.0051, which has four decimals. *)
Lemma analyze_lists_not_rounded :
  exists (log : list request) (resp : response),
    analyze (net_klines [1000051 # 10000]) "BTCUSDT" "1d" = (log, inr resp) /\
    In (1000051 # 10000) (r_prices resp) /\
    In (1000051 # 10000) (r_ema20_list resp) /\
    ~ is_2dp (1000051 # 10000).
Proof.
  do 2 eexists.
  split; [vm_compute; reflexivity|].
  split; [left; reflexivity|].
  split; [left; reflexivity|].
  intros [z Hz]. unfold Qeq in Hz. simpl in Hz. lia.
Qed.

(** * Further properties of the program *)

(** ** [get_klines]: which endpoints are asked and what comes back *)

Lemma attempt_inl_fails : forall net req e,
  attempt net req = inl e -> fails (net req).
Proof.
  intros net req e H. unfold attempt in H.
  destruct (net req) as [e' | status_code body]; [exact I|].
  destruct (Z.eqb_spec status_code 200) as [-> | Hne]; simpl in *.
  - right. destruct body; try exact I. discriminate H.
  - now left.
Qed.

(** X1.  When the first endpoint answers 200 with a list of candles,
    [get_klines] returns that frame after one request: the second endpoint
    is not asked and no error is recorded. *)
Theorem get_klines_first_success :
  forall (net : provider) (symbol interval : string) (limit : Z)
         (rows : DataFrame),
    net (first_request symbol interval limit) = Reply 200 (Klines rows) ->
    get_klines net symbol interval limit
    = {| sent := [first_request symbol interval limit];
         last_error := None;
         fetched := inr rows |}.
Proof.
  intros net symbol interval limit rows H.
  rewrite get_klines_unfold. unfold BINANCE_URLS. cbn [get_klines_loop].
  fold (first_request symbol interval limit).
  now rewrite (attempt_klines _ _ _ H).
Qed.

Lemma get_klines_first_success_witness :
  net_klines [100] (first_request "BTCUSDT" "1h" 200)
  = Reply 200 (Klines (map candle [100])) /\
  get_klines (net_klines [100]) "BTCUSDT" "1h" 200
  = {| sent := [first_request "BTCUSDT" "1h" 200];
       last_error := None;
       fetched := inr (map candle [100]) |}.
Proof.
  assert (H : net_klines [100] (first_request "BTCUSDT" "1h" 200)
              = Reply 200 (Klines (map candle [100]))) by reflexivity.
  split; [exact H|].
  exact (get_klines_first_success (net_klines [100]) "BTCUSDT" "1h" 200 _ H).
Defined.

(** X2.  When the first endpoint fails and the second answers 200 with a
    list of candles, [get_klines] returns the frame of the second endpoint
    after exactly the two requests, and the error it keeps is the one of
    the first endpoint. *)
Theorem get_klines_second_success :
  forall (net : provider) (symbol interval : string) (limit : Z)
         (rows : DataFrame),
    fails (net (first_request symbol interval limit)) ->
    net (second_request symbol interval limit) = Reply 200 (Klines rows) ->
    let f := get_klines net symbol interval limit in
    sent f = [first_request symbol interval limit;
              second_request symbol interval limit] /\
    fetched f = inr rows /\
    exists e, last_error f = Some e /\
              attempt net (first_request symbol interval limit) = inl e.
Proof.
  intros net symbol interval limit rows H1 H2 f. subst f.
  rewrite get_klines_unfold. unfold BINANCE_URLS. cbn [get_klines_loop].
  fold (first_request symbol interval limit).
  fold (second_request symbol interval limit).
  destruct (attempt_fails _ _ H1) as [e He]. rewrite He.
  rewrite (attempt_klines _ _ _ H2). simpl. eauto.
Qed.

(** X3.  [get_klines] raises exactly when both endpoints fail, and the only
    exception it ever raises is the [HTTPException] with status 500 and the
    fixed detail text. *)
Theorem get_klines_raises_iff :
  forall (net : provider) (symbol interval : string) (limit : Z),
    let f := get_klines net symbol interval limit in
    ((exists e, fetched f = inl e) <->
     fails (net (first_request symbol interval limit)) /\
     fails (net (second_request symbol interval limit))) /\
    (forall e, fetched f = inl e ->
               e = HTTPException 500 "Binance API error (all endpoints failed)").
Proof.
  intros net symbol interval limit f. subst f.
  rewrite get_klines_unfold. unfold BINANCE_URLS. cbn [get_klines_loop].
  fold (first_request symbol interval limit).
  fold (second_request symbol interval limit).
  destruct (attempt net (first_request symbol interval limit))
    as [e1 | df1] eqn:H1.
  - destruct (attempt net (second_request symbol interval limit))
      as [e2 | df2] eqn:H2; simpl.
    + split.
      * split; [intros _; split; eapply attempt_inl_fails; eassumption|].
        intros _. eexists; reflexivity.
      * intros e He. inversion He. reflexivity.
    + split.
      * split; [intros [e He]; discriminate He|].
        intros [_ Hf]. destruct (attempt_fails _ _ Hf) as [e He]. congruence.
      * intros e He. discriminate He.
  - simpl. split.
    + split; [intros [e He]; discriminate He|].
      intros [Hf _]. destruct (attempt_fails _ _ Hf) as [e He]. congruence.
    + intros e He. discriminate He.
Qed.

(** X4.  A frame that [get_klines] returns is the body of a 200 answer to
    the last request it issued, and every request before that one failed. *)
Theorem get_klines_frame_origin :
  forall (net : provider) (symbol interval : string) (limit : Z)
         (df : DataFrame),
    fetched (get_klines net symbol interval limit) = inr df ->
    exists (before : list request) (req : request),
      sent (get_klines net symbol interval limit) = (before ++ [req])%list /\
      net req = Reply 200 (Klines df) /\
      Forall (fun r => fails (net r)) before.
Proof.
  intros net symbol interval limit df.
  rewrite get_klines_unfold. unfold BINANCE_URLS. cbn [get_klines_loop].
  assert (Hok : forall req rows, attempt net req = inr rows ->
                                 net req = Reply 200 (Klines rows)).
  { intros req rows H. unfold attempt in H.
    destruct (net req) as [e | status_code body]; [discriminate|].
    destruct (Z.eqb_spec status_code 200) as [-> | Hne]; simpl in H;
      [|discriminate].
    destruct body; try discriminate. now inversion H. }
  destruct (attempt net _) as [e1 | df1] eqn:H1.
  - destruct (attempt net (mk_request "https://api.binance.us/api/v3/klines"
                             _ _ _)) as [e2 | df2] eqn:H2; simpl;
      intros H; [discriminate|]. inversion H; subst df2.
    eexists [_], _. split; [reflexivity|]. split; [now apply Hok|].
    repeat constructor. eapply attempt_inl_fails; eassumption.
  - simpl. intros H. inversion H; subst df1.
    exists [], (mk_request "https://api.binance.com/api/v3/klines" symbol
                  (effective_interval interval) limit).
    split; [reflexivity|]. split; [now apply Hok | constructor].
Qed.

Lemma get_klines_second_success_witness :
  (fails (net_second_only [100] (first_request "BTCUSDT" "1h" 200)) /\
   net_second_only [100] (second_request "BTCUSDT" "1h" 200)
   = Reply 200 (Klines (map candle [100]))) /\
  let f := get_klines (net_second_only [100]) "BTCUSDT" "1h" 200 in
  sent f = [first_request "BTCUSDT" "1h" 200;
            second_request "BTCUSDT" "1h" 200] /\
  fetched f = inr (map candle [100]) /\
  exists e, last_error f = Some e /\
            attempt (net_second_only [100]) (first_request "BTCUSDT" "1h" 200)
            = inl e.
Proof.
  assert (H1 : fails (net_second_only [100] (first_request "BTCUSDT" "1h" 200))).
  { left. discriminate. }
  assert (H2 : net_second_only [100] (second_request "BTCUSDT" "1h" 200)
               = Reply 200 (Klines (map candle [100]))) by reflexivity.
  split; [split; [exact H1 | exact H2]|].
  exact (get_klines_second_success (net_second_only [100]) "BTCUSDT" "1h" 200
           _ H1 H2).
Defined.

Lemma get_klines_frame_origin_witness :
  fetched (get_klines (net_second_only [100]) "BTCUSDT" "1h" 200)
  = inr (map candle [100]) /\
  exists (before : list request) (req : request),
    sent (get_klines (net_second_only [100]) "BTCUSDT" "1h" 200)
    = (before ++ [req])%list /\
    net_second_only [100] req = Reply 200 (Klines (map candle [100])) /\
    Forall (fun r => fails (net_second_only [100] r)) before.
Proof.
  assert (H : fetched (get_klines (net_second_only [100]) "BTCUSDT" "1h" 200)
              = inr (map candle [100])) by reflexivity.
  split; [exact H|].
  exact (get_klines_frame_origin (net_second_only [100]) "BTCUSDT" "1h" 200
           _ H).
Defined.

(** X5.  Whatever the endpoints answer, [get_klines] issues one or two
    requests, to the configured endpoints in their order, and each carries
    the symbol and limit of the call, the user agent Mozilla/5.0 and the
    timeout of 10 seconds. *)
Theorem get_klines_requests_shape :
  forall (net : provider) (symbol interval : string) (limit : Z),
    let log := sent (get_klines net symbol interval limit) in
    (1 <= length log <= 2)%nat /\
    map req_url log = firstn (length log) BINANCE_URLS /\
    Forall (fun r => req_symbol r = symbol /\ req_limit r = limit /\
                     req_user_agent r = "Mozilla/5.0"%string /\
                     req_timeout r = 10%Z) log.
Proof.
  intros net symbol interval limit log. subst log.
  rewrite get_klines_unfold. unfold BINANCE_URLS. cbn [get_klines_loop].
  destruct (attempt net _) as [e1 | df1].
  - destruct (attempt net _) as [e2 | df2]; simpl;
      (split; [lia|]); (split; [reflexivity|]); repeat constructor.
  - simpl. split; [lia|]. split; [reflexivity|]. repeat constructor.
Qed.

(** X6.  An interval of the allow-list is passed on unchanged: every
    request of the call carries it. *)
Theorem get_klines_interval_kept :
  forall (net : provider) (symbol interval : string) (limit : Z),
    In interval ALLOWED_INTERVALS ->
    Forall (fun r => req_interval r = interval)
      (sent (get_klines net symbol interval limit)).
Proof.
  intros net symbol interval limit H.
  pose proof (get_klines_sent_interval net symbol interval limit) as Hs.
  now rewrite (effective_interval_allowed _ H) in Hs.
Qed.

Lemma get_klines_interval_kept_witness :
  In "1d"%string ALLOWED_INTERVALS /\
  Forall (fun r => req_interval r = "1d"%string)
    (sent (get_klines net_down "BTCUSDT" "1d" 200)).
Proof.
  assert (H : In "1d"%string ALLOWED_INTERVALS) by (simpl; auto).
  split; [exact H | exact (get_klines_interval_kept net_down "BTCUSDT" "1d" 200 H)].
Defined.

(** X7.  When both endpoints fail, the error [get_klines] is left with is
    the one of the second endpoint, the first being overwritten: the
    message of the exception for a transport or decoding failure, the URL
    and the status for a status other than 200, the URL and the words
    invalid data for a 200 body that is not a list. *)
Theorem get_klines_last_error :
  forall (net : provider) (symbol interval : string) (limit : Z),
    fails (net (first_request symbol interval limit)) ->
    let req2 := second_request symbol interval limit in
    let f := get_klines net symbol interval limit in
    (forall e, net req2 = TransportError e -> last_error f = Some e) /\
    (forall status_code body,
        net req2 = Reply status_code body -> status_code <> 200%Z ->
        last_error f
        = Some ("https://api.binance.us/api/v3/klines → "
                ++ string_of_Z status_code)%string) /\
    (net req2 = Reply 200 NotList ->
     last_error f
     = Some "https://api.binance.us/api/v3/klines → invalid data"%string) /\
    (forall e, net req2 = Reply 200 (NotJson e) \/
               net req2 = Reply 200 (BadRows e) -> last_error f = Some e).
Proof.
  intros net symbol interval limit H1 req2 f. subst f.
  rewrite get_klines_unfold. unfold BINANCE_URLS. cbn [get_klines_loop].
  fold (first_request symbol interval limit).
  fold (second_request symbol interval limit). fold req2.
  destruct (attempt_fails _ _ H1) as [e1 He1]. rewrite He1.
  unfold attempt.
  split; [|split; [|split]].
  - intros e He. rewrite He. reflexivity.
  - intros status_code body He Hne. rewrite He.
    apply Z.eqb_neq in Hne. rewrite Hne. reflexivity.
  - intros He. rewrite He. reflexivity.
  - intros e [He | He]; rewrite He; reflexivity.
Qed.

Lemma get_klines_last_error_witness :
  fails (net_down (first_request "BTCUSDT" "1h" 200)) /\
  let req2 := second_request "BTCUSDT" "1h" 200 in
  let f := get_klines net_down "BTCUSDT" "1h" 200 in
  (forall e, net_down req2 = TransportError e -> last_error f = Some e) /\
  (forall status_code body,
      net_down req2 = Reply status_code body -> status_code <> 200%Z ->
      last_error f
      = Some ("https://api.binance.us/api/v3/klines → "
              ++ string_of_Z status_code)%string) /\
  (net_down req2 = Reply 200 NotList ->
   last_error f
   = Some "https://api.binance.us/api/v3/klines → invalid data"%string) /\
  (forall e, net_down req2 = Reply 200 (NotJson e) \/
             net_down req2 = Reply 200 (BadRows e) -> last_error f = Some e).
Proof.
  assert (H : fails (net_down (first_request "BTCUSDT" "1h" 200))) by exact I.
  split; [exact H | exact (get_klines_last_error net_down "BTCUSDT" "1h" 200 H)].
Defined.

(** ** [analyze]: outcomes *)

Lemma iloc_last_exn_nonempty : forall {A} (s : list A),
  s <> [] -> exists x, iloc_last_exn s = inr x.
Proof.
  intros A s Hs. unfold iloc_last_exn, iloc_last.
  destruct (nth_error s (length s - 1)) as [x|] eqn:E; [eauto|].
  apply nth_error_None in E. destruct s; [contradiction | simpl in E; lia].
Qed.

Lemma length_nonempty : forall {A B} (s : list A) (t : list B),
  length t = length s -> s <> [] -> t <> [].
Proof. intros A B s t H Hs ->. destruct s; [contradiction | discriminate]. Qed.

(** X8.  [analyze] issues the requests of its [get_klines] call and ends
    in one of three ways: with the exception of [get_klines] when that
    raises, with [IndexError] when the fetched frame is empty, and with a
    response for every non-empty frame. *)
Theorem analyze_outcomes :
  forall (net : provider) (symbol interval : string),
    let f := get_klines net (upper symbol) interval 200 in
    let run := analyze net symbol interval in
    fst run = sent f /\
    (forall e, fetched f = inl e -> snd run = inl e) /\
    (fetched f = inr [] ->
     snd run = inl (IndexError "single positional indexer is out-of-bounds")) /\
    (forall df, fetched f = inr df -> df <> [] ->
                exists resp, snd run = inr resp).
Proof.
  intros net symbol interval f run. subst f run. unfold analyze.
  cbn [fst snd]. split; [reflexivity|].
  split; [intros e ->; reflexivity|].
  split; [intros ->; reflexivity|].
  intros df -> Hdf. cbn [bind].
  assert (Hc : closes df <> []).
  { apply (length_nonempty df); [apply length_map | exact Hdf]. }
  destruct (iloc_last_exn_nonempty (closes df) Hc) as [lc ->].
  destruct (iloc_last_exn_nonempty (calculate_rsi (closes df) 14)) as [lr ->].
  { apply (length_nonempty (closes df)); [apply calculate_rsi_length | exact Hc]. }
  destruct (iloc_last_exn_nonempty (ewm_mean 20 (closes df))) as [l20 ->].
  { apply (length_nonempty (closes df)); [apply ewm_mean_length | exact Hc]. }
  destruct (iloc_last_exn_nonempty (ewm_mean 50 (closes df))) as [l50 ->].
  { apply (length_nonempty (closes df)); [apply ewm_mean_length | exact Hc]. }
  cbn [bind]. eexists. reflexivity.
Qed.

(** X9.  When both endpoints fail, [analyze] ends with the [HTTPException]
    of [get_klines] and the client receives a JSON error body with status
    500 and the fixed detail text. *)
Theorem analyze_upstream_down :
  forall (net : provider) (symbol interval : string),
    fails (net (first_request (upper symbol) interval 200)) ->
    fails (net (second_request (upper symbol) interval 200)) ->
    snd (analyze net symbol interval)
    = inl (HTTPException 500 "Binance API error (all endpoints failed)") /\
    serve (snd (analyze net symbol interval))
    = JsonError 500 "Binance API error (all endpoints failed)".
Proof.
  intros net symbol interval H1 H2. unfold analyze. cbn [snd].
  rewrite get_klines_unfold. unfold BINANCE_URLS. cbn [get_klines_loop].
  fold (first_request (upper symbol) interval 200).
  fold (second_request (upper symbol) interval 200).
  destruct (attempt_fails _ _ H1) as [e1 ->].
  destruct (attempt_fails _ _ H2) as [e2 ->].
  split; reflexivity.
Qed.

Lemma analyze_upstream_down_witness :
  (fails (net_down (first_request (upper "btcusdt") "1h" 200)) /\
   fails (net_down (second_request (upper "btcusdt") "1h" 200))) /\
  snd (analyze net_down "btcusdt" "1h")
  = inl (HTTPException 500 "Binance API error (all endpoints failed)") /\
  serve (snd (analyze net_down "btcusdt" "1h"))
  = JsonError 500 "Binance API error (all endpoints failed)".
Proof.
  assert (H1 : fails (net_down (first_request (upper "btcusdt") "1h" 200)))
    by exact I.
  assert (H2 : fails (net_down (second_request (upper "btcusdt") "1h" 200)))
    by exact I.
  split; [split; [exact H1 | exact H2]|].
  exact (analyze_upstream_down net_down "btcusdt" "1h" H1 H2).
Defined.

(** ** [analyze]: the symbol *)







(** ** [analyze]: short histories *)

Lemma calculate_rsi_warmup : forall closes period i,
  (i < length closes)%nat -> (i < period)%nat ->
  nth_error (calculate_rsi closes period) i = Some (Fin 50).
Proof.
  intros closes period i Hi Hp.
  destruct (calculate_rsi_defined closes period i Hi) as [g [l [Hg [_ Hr]]]].
  rewrite (rsi_avg_gain_warmup closes period i Hi Hp) in Hg.
  inversion Hg; subst g. rewrite Hr. reflexivity.
Qed.

Lemma Forall_nth_error_intro : forall {A} (P : A -> Prop) (l : list A),
  (forall i x, nth_error l i = Some x -> P x) -> Forall P l.
Proof.
  induction l as [|a l IH]; intros H; constructor.
  - apply (H 0%nat). reflexivity.
  - apply IH. intros i x Hx. apply (H (S i)). exact Hx.
Qed.

Lemma trend_of_neutral : forall ema20 ema50,
  trend_of ema20 ema50 (fround2 (Fin 50)) = "Sideways"%string.
Proof.
  intros ema20 ema50. cbn [fround2]. apply trend_of_sideways.
  assert (H : round2 50 == 50) by reflexivity.
  split; intros [_ H']; lra.
Qed.

(** X11.  A response built from 14 candles or fewer lies wholly in the
    warm-up of the RSI: every value of rsi_list is 50 and the trend is
    Sideways, whatever the prices are. *)
Theorem analyze_short_history :
  forall (net : provider) (symbol interval : string)
         (log : list request) (resp : response),
    analyze net symbol interval = (log, inr resp) ->
    (length (r_prices resp) <= 14)%nat ->
    r_trend resp = "Sideways"%string /\
    Forall (fun x => x = Fin 50) (r_rsi_list resp).
Proof.
  intros net symbol interval log resp H Hlen.
  destruct (analyze_ok _ _ _ _ _ H)
    as (df & lc & lr & l20 & l50 & _ & _ & _ & Hlr & _ & _ & _ & _
        & Htrend & _ & _ & _ & _ & _ & Hp & _ & _ & Hr).
  rewrite Hp, tail_length in Hlen.
  assert (Hn : (length (closes df) <= 14)%nat) by lia.
  assert (Hall : forall i x,
             nth_error (calculate_rsi (closes df) 14) i = Some x ->
             x = Fin 50).
  { intros i x Hx.
    assert (Hi : (i < length (closes df))%nat).
    { rewrite <- (calculate_rsi_length (closes df) 14).
      apply nth_error_Some. congruence. }
    rewrite calculate_rsi_warmup in Hx by lia. now inversion Hx. }
  split.
  - rewrite Htrend, (Hall _ _ Hlr). apply trend_of_neutral.
  - rewrite Hr. apply skipn_Forall, Forall_nth_error_intro. exact Hall.
Qed.

Lemma analyze_short_history_witness :
  exists (log : list request) (resp : response),
    (analyze (net_klines [100; 250; 30]) "btcusdt" "1h" = (log, inr resp) /\
     (length (r_prices resp) <= 14)%nat) /\
    r_trend resp = "Sideways"%string /\
    Forall (fun x => x = Fin 50) (r_rsi_list resp).
Proof.
  destruct (analyze (net_klines [100; 250; 30]) "btcusdt" "1h")
    as [log [e | resp]] eqn:E; [vm_compute in E; discriminate E|].
  assert (Hlen : (length (r_prices resp) <= 14)%nat).
  { vm_compute in E. inversion E. vm_compute. lia. }
  exists log, resp. split; [split; [reflexivity | exact Hlen]|].
  exact (analyze_short_history (net_klines [100; 250; 30]) "btcusdt" "1h"
           log resp E Hlen).
Defined.

(** ** [analyze]: confidence and explanation *)

(** X12.  In every successful response the explanation opens with the
    timeframe label (Daily timeframe for 1d, the interval text followed by
    the word timeframe otherwise), the RSI quoted in confidence is the one
    quoted in the explanation, and the explanation says what its numbers
    show: a Bullish text quotes an EMA20 above the EMA50 it quotes and an
    RSI above 55, a Bearish text an EMA20 below the EMA50 and an RSI below
    45, and a Sideways text quotes the RSI alone. *)
Theorem analyze_texts :
  forall (net : provider) (symbol interval : string)
         (log : list request) (resp : response),
    analyze net symbol interval = (log, inr resp) ->
    exists rsi ema20 ema50 : Q,
      r_confidence resp = [Txt "RSI "; Num (Fin rsi)] /\
      hd_error (r_explanation resp)
      = Some (Txt (if (interval =? "1d")%string then "Daily timeframe"
                   else (interval ++ " timeframe")%string)) /\
      (r_trend resp = "Bullish"%string ->
       numbers (r_explanation resp) = [Fin ema20; Fin ema50; Fin rsi] /\
       ema20 > ema50 /\ rsi > 55) /\
      (r_trend resp = "Bearish"%string ->
       numbers (r_explanation resp) = [Fin ema20; Fin ema50; Fin rsi] /\
       ema20 < ema50 /\ rsi < 45) /\
      (r_trend resp = "Sideways"%string ->
       numbers (r_explanation resp) = [Fin rsi]).
Proof.
  intros net symbol interval log resp H.
  destruct (analyze_ok _ _ _ _ _ H)
    as (df & lc & lr & l20 & l50 & _ & _ & _ & Hlr & _ & _ & _ & _
        & Htrend & _ & _ & _ & Hconf & Hexpl & _).
  destruct (calculate_rsi_nth_range _ _ _ Hlr) as [r [-> _]].
  cbn [fround2] in *.
  exists (round2 r), (round2 l20), (round2 l50).
  split; [exact Hconf|]. rewrite Hexpl.
  split.
  { unfold generate_explanation.
    destruct (r_trend resp =? "Bullish")%string;
      [|destruct (r_trend resp =? "Bearish")%string]; reflexivity. }
  split; [|split].
  - intros Hb. rewrite Hb. split; [reflexivity|].
    rewrite Hb in Htrend. symmetry in Htrend.
    now apply trend_of_bullish in Htrend.
  - intros Hb. rewrite Hb. split; [reflexivity|].
    rewrite Hb in Htrend. symmetry in Htrend.
    now apply trend_of_bearish in Htrend.
  - intros Hb. rewrite Hb. reflexivity.
Qed.

Lemma analyze_texts_witness :
  exists (log : list request) (resp : response),
    analyze (net_klines rising15) "btcusdt" "1d" = (log, inr resp) /\
    exists rsi ema20 ema50 : Q,
      r_confidence resp = [Txt "RSI "; Num (Fin rsi)] /\
      hd_error (r_explanation resp)
      = Some (Txt (if ("1d" =? "1d")%string then "Daily timeframe"
                   else ("1d" ++ " timeframe")%string)) /\
      (r_trend resp = "Bullish"%string ->
       numbers (r_explanation resp) = [Fin ema20; Fin ema50; Fin rsi] /\
       ema20 > ema50 /\ rsi > 55) /\
      (r_trend resp = "Bearish"%string ->
       numbers (r_explanation resp) = [Fin ema20; Fin ema50; Fin rsi] /\
       ema20 < ema50 /\ rsi < 45) /\
      (r_trend resp = "Sideways"%string ->
       numbers (r_explanation resp) = [Fin rsi]).
Proof.
  destruct (analyze (net_klines rising15) "btcusdt" "1d")
    as [log [e | resp]] eqn:E; [vm_compute in E; discriminate E|].
  exists log, resp. split; [reflexivity|].
  exact (analyze_texts (net_klines rising15) "btcusdt" "1d" log resp E).
Defined.

(** ** [calculate_rsi]: other periods, the closed form *)

(** X13.  For every period of at least one and every rolling mean that
    keeps the contract of pandas, [calculate_rsi] gives one value for each
    close, never [nan]; the value is 50 at each of the first [period]
    positions, and it lies within [0, 100] wherever neither rolling average
    is negative. *)
Theorem calculate_rsi_any_period :
  forall (rm : rolling) (closes : list Q) (period i : nat),
    rolling_contract rm ->
    (1 <= period)%nat ->
    (i < length closes)%nat ->
    length (calculate_rsi_with rm closes period) = length closes /\
    exists x : fl,
      nth_error (calculate_rsi_with rm closes period) i = Some x /\
      x <> NaN /\
      ((i < period)%nat -> x = Fin 50) /\
      (forall gq lq : Q,
          nth_error (rsi_avg_gain_with rm closes period) i = Some (Fin gq) ->
          nth_error (rsi_avg_loss_with rm closes period) i = Some (Fin lq) ->
          0 <= gq -> 0 <= lq ->
          exists r, x = Fin r /\ 0 <= r /\ r <= 100).
Proof.
  intros rm closes period i Hrm _ Hi.
  split; [now apply calculate_rsi_with_length|].
  destruct (calculate_rsi_with_defined rm Hrm closes period i Hi)
    as [g [l [Hg [Hl Hr]]]].
  exists (rsi_point g l). split; [exact Hr|].
  split; [apply rsi_point_defined|]. split.
  - intros Hw.
    rewrite (rsi_avg_gain_with_warmup rm Hrm closes period i Hi Hw) in Hg.
    inversion Hg. reflexivity.
  - intros gq lq Hg' Hl' Hg0 Hl0. rewrite Hg in Hg'. rewrite Hl in Hl'.
    inversion Hg'; inversion Hl'; subst g l.
    destruct (rsi_point_range (Fin gq) (Fin lq) Hg0 Hl0) as [r [Hp Hrange]].
    exists r. split; [exact Hp | exact Hrange].
Qed.

Lemma calculate_rsi_any_period_witness :
  (rolling_contract rolling_mean /\ (1 <= 3)%nat /\
   (4 < length [10; 11; 9; 12; 12; 8])%nat) /\
  length (calculate_rsi_with rolling_mean [10; 11; 9; 12; 12; 8] 3)
  = length [10; 11; 9; 12; 12; 8] /\
  exists x : fl,
    nth_error (calculate_rsi_with rolling_mean [10; 11; 9; 12; 12; 8] 3) 4
    = Some x /\
    x <> NaN /\
    ((4 < 3)%nat -> x = Fin 50) /\
    (forall gq lq : Q,
        nth_error (rsi_avg_gain_with rolling_mean [10; 11; 9; 12; 12; 8] 3) 4
        = Some (Fin gq) ->
        nth_error (rsi_avg_loss_with rolling_mean [10; 11; 9; 12; 12; 8] 3) 4
        = Some (Fin lq) ->
        0 <= gq -> 0 <= lq ->
        exists r, x = Fin r /\ 0 <= r /\ r <= 100).
Proof.
  assert (H1 : (1 <= 3)%nat) by lia.
  assert (H2 : (4 < length [10; 11; 9; 12; 12; 8])%nat) by (simpl; lia).
  split; [split; [exact rolling_mean_contract | split; [exact H1 | exact H2]]|].
  exact (calculate_rsi_any_period rolling_mean [10; 11; 9; 12; 12; 8] 3 4
           rolling_mean_contract H1 H2).
Defined.

Lemma rsi_point_closed_form : forall g l,
  0 <= g -> 0 < l ->
  exists r, rsi_point (Fin g) (Fin l) = Fin r /\ r == 100 * g / (g + l).
Proof.
  intros g l Hg Hl. unfold rsi_point. cbn [Float.div Float.add].
  rewrite (sgn_pos _ Hl). cbn [Float.add Float.div].
  assert (Hrs : 0 <= g / l) by (apply Qle_shift_div_l; lra).
  assert (Hd : 0 < 1 + g / l) by lra.
  rewrite (sgn_pos _ Hd). simpl.
  eexists; split; [reflexivity|].
  field. repeat split; lra.
Qed.

(** X14.  Where the rolling average of losses is positive, the RSI is the
    share of the average gain in the sum of average gain and average
    loss, in percent: [100 * avg_gain / (avg_gain + avg_loss)]. *)
Theorem calculate_rsi_closed_form :
  forall (closes : list Q) (period i : nat) (g l : Q),
    nth_error (rsi_avg_gain closes period) i = Some (Fin g) ->
    nth_error (rsi_avg_loss closes period) i = Some (Fin l) ->
    0 < l ->
    exists r : Q,
      nth_error (calculate_rsi closes period) i = Some (Fin r) /\
      r == 100 * g / (g + l).
Proof.
  intros closes period i g l Hg Hl Hpos.
  rewrite (calculate_rsi_nth _ _ _ _ _ Hg Hl).
  pose proof (rsi_avg_gain_nonneg _ _ _ _ Hg) as Hg0. simpl in Hg0.
  destruct (rsi_point_closed_form g l Hg0 Hpos) as [r [-> Hr]].
  exists r. split; [reflexivity | exact Hr].
Qed.

Lemma calculate_rsi_closed_form_witness :
  exists g l : Q,
    (nth_error (rsi_avg_gain [10; 11; 9; 12; 12; 8] 3) 4 = Some (Fin g) /\
     nth_error (rsi_avg_loss [10; 11; 9; 12; 12; 8] 3) 4 = Some (Fin l) /\
     0 < l) /\
    exists r : Q,
      nth_error (calculate_rsi [10; 11; 9; 12; 12; 8] 3) 4 = Some (Fin r) /\
      r == 100 * g / (g + l).
Proof.
  destruct (nth_error (rsi_avg_gain [10; 11; 9; 12; 12; 8] 3) 4)
    as [[| | |g]|] eqn:Eg;
    try (exfalso; vm_compute in Eg; discriminate Eg).
  destruct (nth_error (rsi_avg_loss [10; 11; 9; 12; 12; 8] 3) 4)
    as [[| | |l]|] eqn:El;
    try (exfalso; vm_compute in El; discriminate El).
  assert (Hl : 0 < l).
  { vm_compute in El. inversion El. reflexivity. }
  exists g, l. split; [repeat split; exact Hl|].
  exact (calculate_rsi_closed_form [10; 11; 9; 12; 12; 8] 3 4 g l Eg El Hl).
Defined.

(** ** [calculate_rsi]: markets that do not move, only rise or only fall *)

Lemma observations_zero : forall w,
  Forall zero_or_nan w ->
  Forall (fun x => exists q, x = Fin q /\ q == 0) (observations w).
Proof.
  induction 1 as [|x w Hx Hw IH]; simpl; [constructor|].
  destruct x as [| | |q]; simpl in *; try contradiction; auto.
  constructor; eauto.
Qed.

Lemma fsum_zero : forall w,
  Forall (fun x => exists q, x = Fin q /\ q == 0) w ->
  exists s, fsum w = Fin s /\ s == 0.
Proof.
  unfold fsum.
  induction 1 as [|x w [q [-> Hq]] Hw [s [IH Hs]]]; cbn [fold_right].
  - exists 0. split; reflexivity.
  - rewrite IH. cbn [Float.add].
    exists (q + s). split; [reflexivity | lra].
Qed.

Lemma window_mean_zero : forall period w,
  Forall zero_or_nan w -> zero_or_nan (window_mean period w).
Proof.
  intros period w H. unfold window_mean.
  destruct (period <=? length (observations w))%nat; [|exact I].
  destruct (fsum_zero _ (observations_zero _ H)) as [s [Hs Hs0]].
  destruct (observations w) as [|x obs] eqn:E.
  - reflexivity.
  - rewrite Hs. cbn [length Float.div].
    rewrite (sgn_pos _ (inject_nat_pos (length obs))). simpl.
    rewrite Hs0. unfold Qdiv. ring.
Qed.

Lemma rolling_mean_zero : forall period s i x,
  Forall zero_or_nan s ->
  nth_error (rolling_mean period s) i = Some x -> zero_or_nan x.
Proof.
  intros period s i x Hs H.
  assert (Hi : (i < length s)%nat).
  { rewrite <- (rolling_mean_length period). apply nth_error_Some. congruence. }
  rewrite rolling_mean_nth in H by exact Hi. inversion H; subst.
  now apply window_mean_zero, window_Forall.
Qed.

(** The differences of a sequence whose consecutive values are related by
    [R], when [R a b] bounds [b - a] as [P] says. *)
Lemma diff_from_sorted : forall (R : Q -> Q -> Prop) (P : Q -> Prop),
  (forall a b, R a b -> P (b + - a)) ->
  forall s prev,
    Sorted R (prev :: s) ->
    Forall (fun d => exists q, d = Fin q /\ P q) (diff_from prev s).
Proof.
  intros R P HRP. induction s as [|x s IH]; intros prev Hs; simpl;
    constructor.
  - inversion Hs as [|? ? _ Hhd]; subst. inversion Hhd; subst. eauto.
  - apply IH. now inversion Hs.
Qed.

Lemma diff_sorted : forall (R : Q -> Q -> Prop) (P : Q -> Prop),
  (forall a b, R a b -> P (b + - a)) ->
  forall s, Sorted R s ->
            Forall (fun d => d = NaN \/ exists q, d = Fin q /\ P q) (diff s).
Proof.
  intros R P HRP [|x s] Hs; simpl; constructor; [now left|].
  eapply Forall_impl; [|apply (diff_from_sorted R P HRP); exact Hs].
  intros d H. now right.
Qed.

Lemma loss_zero_rising : forall s,
  Sorted Qle s ->
  Forall zero_or_nan
    (map (fun d => Float.neg (Float.clip_upper 0 d)) (diff s)).
Proof.
  intros s Hs. apply Forall_map.
  eapply Forall_impl;
    [|apply (diff_sorted Qle (fun q => 0 <= q)); [intros a b H; lra | exact Hs]].
  intros d [-> | [q [-> Hq]]]; simpl; [exact I|].
  destruct (Qlt_le_dec 0 q); lra.
Qed.

Lemma gain_zero_falling : forall s,
  Sorted (fun a b => b <= a) s ->
  Forall zero_or_nan (map (Float.clip_lower 0) (diff s)).
Proof.
  intros s Hs. apply Forall_map.
  eapply Forall_impl;
    [|apply (diff_sorted (fun a b => b <= a) (fun q => q <= 0));
      [intros a b H; lra | exact Hs]].
  intros d [-> | [q [-> Hq]]]; simpl; [exact I|].
  destruct (Qlt_le_dec q 0); lra.
Qed.

Lemma rsi_point_no_gain : forall g l,
  g == 0 -> 0 < l -> exists r, rsi_point (Fin g) (Fin l) = Fin r /\ r == 0.
Proof.
  intros g l Hg Hl.
  assert (Hg0 : 0 <= g) by lra.
  destruct (rsi_point_closed_form g l Hg0 Hl) as [r [Hr Heq]].
  exists r. split; [exact Hr|]. rewrite Heq, Hg. field. lra.
Qed.

Lemma calculate_rsi_rising : forall closes i x,
  Sorted Qle closes ->
  nth_error (calculate_rsi closes 14) i = Some x ->
  exists r, x = Fin r /\ (r == 50 \/ r == 100).
Proof.
  intros closes i x Hs Hx.
  assert (Hi : (i < length closes)%nat).
  { rewrite <- (calculate_rsi_length closes 14). apply nth_error_Some.
    congruence. }
  destruct (calculate_rsi_defined closes 14 i Hi) as [g [l [Hg [Hl Hr]]]].
  pose proof (rsi_avg_gain_nonneg _ _ _ _ Hg) as Hg0.
  rewrite Hr in Hx. inversion Hx; subst x. clear Hx.
  assert (Hz : zero_or_nan l).
  { unfold rsi_avg_loss, rsi_avg_loss_with in Hl.
    eapply rolling_mean_zero; [apply loss_zero_rising, Hs | exact Hl]. }
  destruct g as [| | |a]; try contradiction.
  { exists 50. split; [reflexivity | now left]. }
  destruct l as [| | |b]; try contradiction.
  { exists 50. split; [reflexivity | now left]. }
  simpl in Hg0, Hz. destruct (Qlt_le_dec 0 a) as [Ha | Ha].
  - destruct (rsi_point_no_loss a b Ha Hz) as [r [-> H100]].
    exists r. split; [reflexivity | now right].
  - assert (Ha0 : a == 0) by lra.
    rewrite (rsi_point_flat a b Ha0 Hz).
    exists 50. split; [reflexivity | now left].
Qed.

Lemma calculate_rsi_falling : forall closes i x,
  Sorted (fun a b => b <= a) closes ->
  nth_error (calculate_rsi closes 14) i = Some x ->
  exists r, x = Fin r /\ (r == 50 \/ r == 0).
Proof.
  intros closes i x Hs Hx.
  assert (Hi : (i < length closes)%nat).
  { rewrite <- (calculate_rsi_length closes 14). apply nth_error_Some.
    congruence. }
  destruct (calculate_rsi_defined closes 14 i Hi) as [g [l [Hg [Hl Hr]]]].
  pose proof (rsi_avg_loss_nonneg _ _ _ _ Hl) as Hl0.
  rewrite Hr in Hx. inversion Hx; subst x. clear Hx.
  assert (Hz : zero_or_nan g).
  { unfold rsi_avg_gain, rsi_avg_gain_with in Hg.
    eapply rolling_mean_zero; [apply gain_zero_falling, Hs | exact Hg]. }
  destruct g as [| | |a]; try contradiction.
  { exists 50. split; [reflexivity | now left]. }
  destruct l as [| | |b]; try contradiction.
  { exists 50. split; [reflexivity | now left]. }
  simpl in Hl0, Hz. destruct (Qlt_le_dec 0 b) as [Hb | Hb].
  - destruct (rsi_point_no_gain a b Hz Hb) as [r [-> H0]].
    exists r. split; [reflexivity | now right].
  - assert (Hb0 : b == 0) by lra.
    rewrite (rsi_point_flat a b Hz Hb0).
    exists 50. split; [reflexivity | now left].
Qed.

(** X15.  While the closes never fall (each is at least the one before),
    every RSI value is 50 or 100; while they never rise, every RSI value is
    50 or 0. *)
Theorem calculate_rsi_monotone :
  forall (closes : list Q) (i : nat),
    (i < length closes)%nat ->
    (Sorted Qle closes ->
     exists r, nth_error (calculate_rsi closes 14) i = Some (Fin r) /\
               (r == 50 \/ r == 100)) /\
    (Sorted (fun a b => b <= a) closes ->
     exists r, nth_error (calculate_rsi closes 14) i = Some (Fin r) /\
               (r == 50 \/ r == 0)).
Proof.
  intros closes i Hi.
  destruct (nth_error (calculate_rsi closes 14) i) as [x|] eqn:Hx.
  2:{ apply nth_error_None in Hx. rewrite calculate_rsi_length in Hx. lia. }
  split; intros Hs.
  - destruct (calculate_rsi_rising _ _ _ Hs Hx) as [r [-> Hr]]. eauto.
  - destruct (calculate_rsi_falling _ _ _ Hs Hx) as [r [-> Hr]]. eauto.
Qed.

Lemma calculate_rsi_monotone_witness :
  ((14 < length rising15)%nat /\ (14 < length falling15)%nat) /\
  (Sorted Qle rising15 /\
   exists r, nth_error (calculate_rsi rising15 14) 14 = Some (Fin r) /\
             (r == 50 \/ r == 100)) /\
  (Sorted (fun a b => b <= a) falling15 /\
   exists r, nth_error (calculate_rsi falling15 14) 14 = Some (Fin r) /\
             (r == 50 \/ r == 0)).
Proof.
  assert (H1 : (14 < length rising15)%nat) by (vm_compute; lia).
  assert (H2 : (14 < length falling15)%nat) by (vm_compute; lia).
  assert (S1 : Sorted Qle rising15).
  { unfold rising15. simpl.
    repeat (constructor; try (unfold Qle; simpl; lia)). }
  assert (S2 : Sorted (fun a b => b <= a) falling15).
  { unfold falling15. simpl.
    repeat (constructor; try (unfold Qle; simpl; lia)). }
  split; [split; [exact H1 | exact H2]|]. split.
  - split; [exact S1|].
    exact (proj1 (calculate_rsi_monotone rising15 14 H1) S1).
  - split; [exact S2|].
    exact (proj2 (calculate_rsi_monotone falling15 14 H2) S2).
Defined.

(** ** A market that does not move *)

Lemma round2_comp : forall x y, x == y -> round2 x = round2 y.
Proof.
  intros x y H. unfold round2. f_equal. unfold rint.
  assert (Hf : Qfloor (x * 100) = Qfloor (y * 100)) by now rewrite H.
  rewrite Hf.
  assert (Hc : Qcompare (x * 100 - inject_Z (Qfloor (y * 100))) (1 # 2)
               = Qcompare (y * 100 - inject_Z (Qfloor (y * 100))) (1 # 2))
    by now rewrite H.
  now rewrite Hc.
Qed.

Lemma trend_of_tie : forall ema rsi, trend_of ema ema rsi = "Sideways"%string.
Proof.
  intros ema rsi. unfold trend_of, Float.ltb. cbn [Float.gtb].
  assert (H : Qcompare ema ema = Eq) by (apply Qeq_alt; reflexivity).
  rewrite H. reflexivity.
Qed.

Lemma flat_sorted : forall c s,
  Forall (fun x => x == c) s -> Sorted (fun a b => a == b) s.
Proof.
  induction 1 as [|x s Hx Hs IH]; constructor; [exact IH|].
  destruct Hs as [|y s Hy Hs]; constructor. lra.
Qed.

Lemma gain_zero_flat : forall c s,
  Forall (fun x => x == c) s ->
  Forall zero_or_nan (map (Float.clip_lower 0) (diff s)).
Proof.
  intros c s Hs. apply Forall_map.
  eapply Forall_impl;
    [|apply (diff_sorted (fun a b => a == b) (fun q => q == 0));
      [intros a b H; lra | eapply flat_sorted, Hs]].
  intros d [-> | [q [-> Hq]]]; simpl; [exact I|].
  destruct (Qlt_le_dec q 0); lra.
Qed.

Lemma loss_zero_flat : forall c s,
  Forall (fun x => x == c) s ->
  Forall zero_or_nan
    (map (fun d => Float.neg (Float.clip_upper 0 d)) (diff s)).
Proof.
  intros c s Hs. apply Forall_map.
  eapply Forall_impl;
    [|apply (diff_sorted (fun a b => a == b) (fun q => q == 0));
      [intros a b H; lra | eapply flat_sorted, Hs]].
  intros d [-> | [q [-> Hq]]]; simpl; [exact I|].
  destruct (Qlt_le_dec 0 q); lra.
Qed.

Lemma calculate_rsi_flat : forall c s,
  Forall (fun x => x == c) s ->
  Forall (fun x => x = Fin 50) (calculate_rsi s 14).
Proof.
  intros c s Hs. apply Forall_nth_error_intro. intros i x Hx.
  assert (Hi : (i < length s)%nat).
  { rewrite <- (calculate_rsi_length s 14). apply nth_error_Some. congruence. }
  destruct (calculate_rsi_defined s 14 i Hi) as [g [l [Hg [Hl Hr]]]].
  rewrite Hr in Hx. inversion Hx; subst x.
  assert (Hgz : zero_or_nan g).
  { unfold rsi_avg_gain, rsi_avg_gain_with in Hg.
    eapply rolling_mean_zero; [eapply gain_zero_flat, Hs | exact Hg]. }
  assert (Hlz : zero_or_nan l).
  { unfold rsi_avg_loss, rsi_avg_loss_with in Hl.
    eapply rolling_mean_zero; [eapply loss_zero_flat, Hs | exact Hl]. }
  destruct g as [| | |a]; try contradiction; [reflexivity|].
  destruct l as [| | |b]; try contradiction; [reflexivity|].
  now apply rsi_point_flat.
Qed.

Lemma ewm_loop_flat : forall alpha c rest weighted,
  weighted == c -> Forall (fun x => x == c) rest ->
  Forall (fun x => x == c) (ewm_loop alpha weighted rest).
Proof.
  induction rest as [|cur rest IH]; intros weighted Hw Hrest; simpl;
    [constructor|].
  inversion Hrest as [|? ? Hcur Hrest']; subst.
  assert (H : (1 - alpha) * weighted + alpha * cur == c).
  { rewrite Hw, Hcur. ring. }
  constructor; [exact H | now apply IH].
Qed.

Lemma ewm_mean_flat : forall span c s,
  Forall (fun x => x == c) s -> Forall (fun x => x == c) (ewm_mean span s).
Proof.
  intros span c [|x0 rest] Hs; simpl; [constructor|].
  inversion Hs; subst. constructor; [assumption|].
  now apply ewm_loop_flat.
Qed.

Lemma tail_Forall : forall {A} (P : A -> Prop) (n : nat) (s : list A),
  Forall P s -> Forall P (tail n s).
Proof.
  intros A P n s. unfold tail. generalize (length s - n)%nat as k.
  induction k as [|k IH] in s |- *; intros H; [exact H|].
  destruct H; simpl; [constructor | auto].
Qed.

Lemma iloc_last_In : forall {A} (s : list A) x,
  iloc_last s = Some x -> In x s.
Proof. intros A s x H. eapply nth_error_In, H. Qed.

(** X16.  When every fetched candle closes at the same price, every value
    of rsi_list is 50, every value of ema20_list and of ema50_list is that
    price, and the trend is Sideways. *)
Theorem analyze_flat_market :
  forall (net : provider) (symbol interval : string)
         (log : list request) (resp : response) (df : DataFrame) (c : Q),
    analyze net symbol interval = (log, inr resp) ->
    fetched (get_klines net (upper symbol) interval 200) = inr df ->
    Forall (fun k => k_close k == c) df ->
    r_trend resp = "Sideways"%string /\
    Forall (fun x => x = Fin 50) (r_rsi_list resp) /\
    Forall (fun x => x == c) (r_ema20_list resp) /\
    Forall (fun x => x == c) (r_ema50_list resp).
Proof.
  intros net symbol interval log resp df c H Hdf Hflat.
  destruct (analyze_ok _ _ _ _ _ H)
    as (df' & lc & lr & l20 & l50 & Hdf' & _ & _ & _ & H20 & H50 & _ & _
        & Htrend & _ & _ & _ & _ & _ & _ & He20 & He50 & Hr).
  rewrite Hdf in Hdf'. inversion Hdf'; subst df'. clear Hdf'.
  assert (Hc : Forall (fun x => x == c) (closes df)).
  { unfold closes. now apply Forall_map. }
  pose proof (ewm_mean_flat 20 c _ Hc) as F20.
  pose proof (ewm_mean_flat 50 c _ Hc) as F50.
  rewrite Hr, He20, He50.
  split; [|split; [|split]].
  - rewrite Forall_forall in F20, F50.
    pose proof (F20 _ (iloc_last_In _ _ H20)) as E20.
    pose proof (F50 _ (iloc_last_In _ _ H50)) as E50.
    rewrite Htrend.
    rewrite (round2_comp l20 l50) by (rewrite E20, E50; reflexivity).
    apply trend_of_tie.
  - eapply tail_Forall, calculate_rsi_flat, Hc.
  - now apply tail_Forall.
  - now apply tail_Forall.
Qed.

Lemma analyze_flat_market_witness :
  exists (log : list request) (resp : response),
    (analyze (net_klines flat20) "btcusdt" "1h" = (log, inr resp) /\
     fetched (get_klines (net_klines flat20) (upper "btcusdt") "1h" 200)
     = inr (map candle flat20) /\
     Forall (fun k => k_close k == 7) (map candle flat20)) /\
    r_trend resp = "Sideways"%string /\
    Forall (fun x => x = Fin 50) (r_rsi_list resp) /\
    Forall (fun x => x == 7) (r_ema20_list resp) /\
    Forall (fun x => x == 7) (r_ema50_list resp).
Proof.
  destruct (analyze (net_klines flat20) "btcusdt" "1h")
    as [log [e | resp]] eqn:E; [vm_compute in E; discriminate E|].
  assert (Hdf : fetched (get_klines (net_klines flat20) (upper "btcusdt")
                           "1h" 200) = inr (map candle flat20))
    by reflexivity.
  assert (Hflat : Forall (fun k => k_close k == 7) (map candle flat20)).
  { unfold flat20. simpl. repeat constructor. }
  exists log, resp. split; [split; [reflexivity | split; assumption]|].
  exact (analyze_flat_market (net_klines flat20) "btcusdt" "1h" log resp
           _ 7 E Hdf Hflat).
Defined.

(** ** The moving averages stay within the prices *)





(** ** Rounding and the price levels *)

Lemma rint_le_int : forall x z, x <= inject_Z z -> (rint x <= z)%Z.
Proof.
  intros x z H. pose proof (rint_error x) as [_ Hup].
  assert (Hlt : inject_Z (rint x) < inject_Z (z + 1)).
  { rewrite inject_Z_plus. change (inject_Z 1) with 1. lra. }
  rewrite <- Zlt_Qlt in Hlt. lia.
Qed.

Lemma rint_ge_int : forall x z, inject_Z z <= x -> (z <= rint x)%Z.
Proof.
  intros x z H. pose proof (rint_error x) as [Hlo _].
  assert (Hlt : inject_Z z < inject_Z (rint x + 1)).
  { rewrite inject_Z_plus. change (inject_Z 1) with 1. lra. }
  rewrite <- Zlt_Qlt in Hlt. lia.
Qed.

Lemma round2_scaled_down : forall z k,
  (0 <= z)%Z -> 0 <= k -> k <= 1 -> round2 ((z # 100) * k) <= z # 100.
Proof.
  intros z k Hz Hk0 Hk1.
  assert (Hq : 0 <= inject_Z z) by (change 0 with (inject_Z 0); now rewrite <- Zle_Qle).
  assert (H : (rint ((z # 100) * k * 100) <= z)%Z).
  { apply rint_le_int. rewrite hundredths. nra. }
  unfold round2, Qle. simpl. lia.
Qed.

Lemma round2_scaled_up : forall z k,
  (0 <= z)%Z -> 1 <= k -> z # 100 <= round2 ((z # 100) * k).
Proof.
  intros z k Hz Hk.
  assert (Hq : 0 <= inject_Z z) by (change 0 with (inject_Z 0); now rewrite <- Zle_Qle).
  assert (H : (z <= rint ((z # 100) * k * 100))%Z).
  { apply rint_ge_int. rewrite hundredths. nra. }
  unfold round2, Qle. simpl. lia.
Qed.

(** X18.  In a successful response with an entry price that is not
    negative, the stoploss is at most the entry and the target is at least
    the entry, for every interval. *)
Theorem analyze_levels_ordered :
  forall (net : provider) (symbol interval : string)
         (log : list request) (resp : response),
    analyze net symbol interval = (log, inr resp) ->
    0 <= r_entry resp ->
    r_stoploss resp <= r_entry resp /\ r_entry resp <= r_target resp.
Proof.
  intros net symbol interval log resp H Hpos.
  destruct (analyze_ok _ _ _ _ _ H)
    as (df & lc & lr & l20 & l50 & _ & _ & _ & _ & _ & _ & _ & _ & _
        & Hentry & Hstop & Htarget & _).
  rewrite Hstop, Htarget, Hentry. rewrite Hentry in Hpos.
  change (round2 lc) with (rint (lc * 100) # 100) in *.
  assert (Hz : (0 <= rint (lc * 100))%Z).
  { unfold Qle in Hpos. simpl in Hpos. lia. }
  split.
  - apply round2_scaled_down; [exact Hz| |];
      destruct (interval =? "1d")%string; unfold Qle; simpl; lia.
  - apply round2_scaled_up; [exact Hz|];
      destruct (interval =? "1d")%string; unfold Qle; simpl; lia.
Qed.

Lemma analyze_levels_ordered_witness :
  exists (log : list request) (resp : response),
    (analyze (net_klines [1000051 # 10000]) "btcusdt" "1d" = (log, inr resp) /\
     0 <= r_entry resp) /\
    r_stoploss resp <= r_entry resp /\ r_entry resp <= r_target resp.
Proof.
  destruct (analyze (net_klines [1000051 # 10000]) "btcusdt" "1d")
    as [log [e | resp]] eqn:E; [vm_compute in E; discriminate E|].
  assert (Hpos : 0 <= r_entry resp).
  { vm_compute in E. inversion E. vm_compute. discriminate. }
  exists log, resp. split; [split; [reflexivity | exact Hpos]|].
  exact (analyze_levels_ordered (net_klines [1000051 # 10000]) "btcusdt" "1d"
           log resp E Hpos).
Defined.

(** ** An interval outside the allow-list *)

Lemma get_klines_other_interval : forall net symbol interval limit,
  ~ In interval ALLOWED_INTERVALS ->
  get_klines net symbol interval limit = get_klines net symbol "15m" limit.
Proof.
  intros net symbol interval limit H.
  now rewrite !get_klines_unfold, (effective_interval_other _ H).
Qed.

(** X20.  A successful response to an interval outside the allow-list is
    the response the same request gets with interval 15m, but for the two
    places where the interval text itself is put: it is computed from
    candles fetched with 15m and has the entry, stoploss, target, trend,
    confidence and the four lists of the 15m response (so the price levels
    of the branch that is not daily), while its interval field and the
    timeframe label of its explanation carry the text as received. *)
Theorem analyze_unrecognised_interval :
  forall (net : provider) (symbol interval : string)
         (log : list request) (resp : response),
    ~ In interval ALLOWED_INTERVALS ->
    analyze net symbol interval = (log, inr resp) ->
    Forall (fun r => req_interval r = "15m"%string) log /\
    r_interval resp = interval /\
    hd_error (r_explanation resp)
    = Some (Txt (interval ++ " timeframe")%string) /\
    exists resp15 : response,
      analyze net symbol "15m" = (log, inr resp15) /\
      r_symbol resp = r_symbol resp15 /\
      r_trend resp = r_trend resp15 /\
      r_entry resp = r_entry resp15 /\
      r_stoploss resp = r_stoploss resp15 /\
      r_target resp = r_target resp15 /\
      r_confidence resp = r_confidence resp15 /\
      numbers (r_explanation resp) = numbers (r_explanation resp15) /\
      r_prices resp = r_prices resp15 /\
      r_ema20_list resp = r_ema20_list resp15 /\
      r_ema50_list resp = r_ema50_list resp15 /\
      r_rsi_list resp = r_rsi_list resp15.
Proof.
  intros net symbol interval log resp Hout H.
  assert (Hne : (interval =? "1d")%string = false).
  { apply String.eqb_neq. intros ->. apply Hout. simpl. auto. }
  destruct (analyze_ok _ _ _ _ _ H)
    as (df & lc & lr & l20 & l50 & Hdf & Hlog & Hlc & Hlr & Hl20 & Hl50
        & Hsym & Hint & Htrend & Hentry & Hstop & Htarget & Hconf & Hexpl
        & Hp & H20 & H50 & Hr).
  rewrite Hne in Hstop, Htarget.
  rewrite (get_klines_other_interval _ _ _ _ Hout) in Hdf, Hlog.
  split.
  { subst log.
    pose proof (get_klines_sent_interval net (upper symbol) "15m" 200) as Hs.
    exact Hs. }
  split; [exact Hint|]. split.
  { rewrite Hexpl. unfold generate_explanation. rewrite Hne.
    destruct (r_trend resp =? "Bullish")%string;
      [|destruct (r_trend resp =? "Bearish")%string]; reflexivity. }
  destruct (analyze net symbol "15m") as [log15 [e | resp15]] eqn:E15.
  { exfalso. unfold analyze in E15. injection E15 as _ He.
    rewrite Hdf in He. cbn [bind] in He.
    unfold iloc_last_exn in He. rewrite Hlc, Hlr, Hl20, Hl50 in He.
    discriminate He. }
  destruct (analyze_ok _ _ _ _ _ E15)
    as (df' & lc' & lr' & l20' & l50' & Hdf' & Hlog' & Hlc' & Hlr' & Hl20'
        & Hl50' & Hsym' & _ & Htrend' & Hentry' & Hstop' & Htarget' & Hconf'
        & Hexpl' & Hp' & H20' & H50' & Hr').
  rewrite Hdf in Hdf'. inversion Hdf'; subst df'.
  rewrite Hlc in Hlc'. rewrite Hlr in Hlr'. rewrite Hl20 in Hl20'.
  rewrite Hl50 in Hl50'.
  inversion Hlc'; inversion Hlr'; inversion Hl20'; inversion Hl50'.
  subst lc' lr' l20' l50'.
  exists resp15. split; [now rewrite Hlog, Hlog'|].
  cbn [String.eqb Ascii.eqb Bool.eqb] in Hstop', Htarget'.
  assert (Ht : r_trend resp = r_trend resp15) by now rewrite Htrend, Htrend'.
  repeat (split; [congruence|]). split.
  - rewrite Hexpl, Hexpl', <- Ht. unfold generate_explanation.
    destruct (r_trend resp =? "Bullish")%string;
      [|destruct (r_trend resp =? "Bearish")%string]; reflexivity.
  - repeat split; congruence.
Qed.

Lemma analyze_unrecognised_interval_witness :
  exists (log : list request) (resp : response),
    (~ In "1D"%string ALLOWED_INTERVALS /\
     analyze (net_klines [100]) "btcusdt" "1D" = (log, inr resp)) /\
    Forall (fun r => req_interval r = "15m"%string) log /\
    r_interval resp = "1D"%string /\
    hd_error (r_explanation resp) = Some (Txt ("1D" ++ " timeframe")%string) /\
    exists resp15 : response,
      analyze (net_klines [100]) "btcusdt" "15m" = (log, inr resp15) /\
      r_symbol resp = r_symbol resp15 /\
      r_trend resp = r_trend resp15 /\
      r_entry resp = r_entry resp15 /\
      r_stoploss resp = r_stoploss resp15 /\
      r_target resp = r_target resp15 /\
      r_confidence resp = r_confidence resp15 /\
      numbers (r_explanation resp) = numbers (r_explanation resp15) /\
      r_prices resp = r_prices resp15 /\
      r_ema20_list resp = r_ema20_list resp15 /\
      r_ema50_list resp = r_ema50_list resp15 /\
      r_rsi_list resp = r_rsi_list resp15.
Proof.
  assert (Hout : ~ In "1D"%string ALLOWED_INTERVALS).
  { simpl. intros [H | [H | [H | [H | []]]]]; discriminate H. }
  destruct (analyze (net_klines [100]) "btcusdt" "1D")
    as [log [e | resp]] eqn:E; [vm_compute in E; discriminate E|].
  exists log, resp. split; [split; [exact Hout | reflexivity]|].
  exact (analyze_unrecognised_interval (net_klines [100]) "btcusdt" "1D"
           log resp Hout E).
Defined.

(** ** A market that only rises or only falls *)

Lemma round2_50 : round2 50 == 50.
Proof. reflexivity. Qed.

Lemma round2_100 : round2 100 == 100.
Proof. reflexivity. Qed.

Lemma round2_0 : round2 0 == 0.
Proof. reflexivity. Qed.

(** X21.  When no fetched close is below the one before it, the trend of a
    successful response is not Bearish; when none is above the one before
    it, the trend is not Bullish. *)
Theorem analyze_monotone_market :
  forall (net : provider) (symbol interval : string)
         (log : list request) (resp : response) (df : DataFrame),
    analyze net symbol interval = (log, inr resp) ->
    fetched (get_klines net (upper symbol) interval 200) = inr df ->
    (Sorted Qle (closes df) -> r_trend resp <> "Bearish"%string) /\
    (Sorted (fun a b => b <= a) (closes df) ->
     r_trend resp <> "Bullish"%string).
Proof.
  intros net symbol interval log resp df H Hdf.
  destruct (analyze_ok _ _ _ _ _ H)
    as (df' & lc & lr & l20 & l50 & Hdf' & _ & _ & Hlr & _ & _ & _ & _
        & Htrend & _).
  rewrite Hdf in Hdf'. inversion Hdf'; subst df'. clear Hdf'.
  rewrite Htrend. split; intros Hs Hb.
  - destruct (calculate_rsi_rising _ _ _ Hs Hlr) as [r [-> Hr]].
    cbn [fround2] in Hb. apply trend_of_bearish in Hb. destruct Hb as [_ Hb].
    destruct Hr as [Hr | Hr]; rewrite (round2_comp _ _ Hr) in Hb.
    + rewrite round2_50 in Hb. lra.
    + rewrite round2_100 in Hb. lra.
  - destruct (calculate_rsi_falling _ _ _ Hs Hlr) as [r [-> Hr]].
    cbn [fround2] in Hb. apply trend_of_bullish in Hb. destruct Hb as [_ Hb].
    destruct Hr as [Hr | Hr]; rewrite (round2_comp _ _ Hr) in Hb.
    + rewrite round2_50 in Hb. lra.
    + rewrite round2_0 in Hb. lra.
Qed.

Lemma analyze_monotone_market_witness :
  exists (log1 log2 : list request) (resp1 resp2 : response),
    ((analyze (net_klines rising15) "btcusdt" "1h" = (log1, inr resp1) /\
      fetched (get_klines (net_klines rising15) (upper "btcusdt") "1h" 200)
      = inr (map candle rising15)) /\
     (analyze (net_klines falling15) "btcusdt" "1h" = (log2, inr resp2) /\
      fetched (get_klines (net_klines falling15) (upper "btcusdt") "1h" 200)
      = inr (map candle falling15))) /\
    (Sorted Qle (closes (map candle rising15)) /\
     r_trend resp1 <> "Bearish"%string) /\
    (Sorted (fun a b => b <= a) (closes (map candle falling15)) /\
     r_trend resp2 <> "Bullish"%string).
Proof.
  destruct (analyze (net_klines rising15) "btcusdt" "1h")
    as [log1 [e | resp1]] eqn:E1; [vm_compute in E1; discriminate E1|].
  destruct (analyze (net_klines falling15) "btcusdt" "1h")
    as [log2 [e | resp2]] eqn:E2; [vm_compute in E2; discriminate E2|].
  assert (F1 : fetched (get_klines (net_klines rising15) (upper "btcusdt")
                          "1h" 200) = inr (map candle rising15))
    by reflexivity.
  assert (F2 : fetched (get_klines (net_klines falling15) (upper "btcusdt")
                          "1h" 200) = inr (map candle falling15))
    by reflexivity.
  assert (S1 : Sorted Qle (closes (map candle rising15))).
  { unfold rising15. simpl.
    repeat (constructor; try (unfold Qle; simpl; lia)). }
  assert (S2 : Sorted (fun a b => b <= a) (closes (map candle falling15))).
  { unfold falling15. simpl.
    repeat (constructor; try (unfold Qle; simpl; lia)). }
  exists log1, log2, resp1, resp2.
  split; [split; split; (reflexivity || assumption)|]. split.
  - split; [exact S1|].
    exact (proj1 (analyze_monotone_market (net_klines rising15) "btcusdt" "1h"
                    log1 resp1 _ E1 F1) S1).
  - split; [exact S2|].
    exact (proj2 (analyze_monotone_market (net_klines falling15) "btcusdt" "1h"
                    log2 resp2 _ E2 F2) S2).
Defined.

(** ** Full windows: the RSI of a market that rises or falls at every step *)










